(** * The repository portfolio: fetch, normalise, aggregate, filter

    A shallow embedding of the data pipeline of the portfolio site:

    - [hooks/useGitHubRepos]: [normalise], [fetchPage] and the
      [loadRepositories] cycle started by the effect of [useGitHubRepos];
    - [App]: the [tags] aggregator and the [filteredRepositories] filter.

    Strings are sequences of code units below 256 (Latin-1); on that range
    [toLowerCase] and [trim] act code unit by code unit exactly as written
    below.  [Date] parsing and [localeCompare] depend on the host and on the
    locale, so the definitions that use them take them as parameters. *)

From Stdlib Require Import List String Ascii Bool Arith NArith ZArith Lia.
From Stdlib Require Import Permutation Sorted DecimalString.
Import ListNotations.

Open Scope string_scope.
Open Scope list_scope.
Open Scope nat_scope.

(* ================================================================== *)
(** ** The JavaScript built-ins the code relies on                      *)
(* ================================================================== *)

Module JS.

(** A [Number]: [None] stands for [NaN]; the code only produces integers. *)
Definition Number := option Z.

Definition Number_sub (a b : Number) : Number :=
  match a, b with
  | Some x, Some y => Some (x - y)%Z
  | _, _ => None
  end.

(** *** Strings *)

Definition isUpperCase (c : ascii) : bool :=
  let n := N_of_ascii c in
  ((65 <=? n) && (n <=? 90) || (192 <=? n) && (n <=? 222) && negb (n =? 215))%N.

Definition lowerCodeUnit (c : ascii) : ascii :=
  if isUpperCase c then ascii_of_N (N_of_ascii c + 32) else c.

(** [s.toLowerCase()], on strings of code units below 256, where the
    built-in has no mapping that depends on the context. *)
Fixpoint toLowerCase (s : string) : string :=
  match s with
  | EmptyString => EmptyString
  | String c s' => String (lowerCodeUnit c) (toLowerCase s')
  end.

(** WhiteSpace and LineTerminator code units: TAB, LF, VT, FF, CR, SP, NBSP. *)
Definition isWhiteSpace (c : ascii) : bool :=
  let n := N_of_ascii c in
  ((9 <=? n) && (n <=? 13) || (n =? 32) || (n =? 160))%N.

(** [s.trimStart()] *)
Fixpoint trimStart (s : string) : string :=
  match s with
  | EmptyString => EmptyString
  | String c s' => if isWhiteSpace c then trimStart s' else s
  end.

(** [s.trimEnd()] *)
Fixpoint trimEnd (s : string) : string :=
  match s with
  | EmptyString => EmptyString
  | String c s' =>
      match trimEnd s' with
      | EmptyString => if isWhiteSpace c then EmptyString else String c EmptyString
      | t => String c t
      end
  end.

(** [s.trim()] *)
Definition trim (s : string) : string := trimStart (trimEnd s).

(** [s.includes(q)]: [q] occurs in [s] as a substring. *)
Fixpoint includes (s q : string) : bool :=
  prefix q s ||
  match s with
  | EmptyString => false
  | String _ s' => includes s' q
  end.

(** A string in a boolean position: only the empty string is falsy. *)
Definition truthy (s : string) : bool := negb (String.length s =? 0).

(** [String(n)] for a non-negative integer. *)
Definition String_of_nat (n : nat) : string :=
  NilZero.string_of_uint (Nat.to_uint n).

(** *** Arrays of strings and [Set] *)

(** [xs.includes(x)] *)
Definition Array_includes (xs : list string) (x : string) : bool :=
  existsb (String.eqb x) xs.

(** [set.add(x)]: a [Set] keeps insertion order and ignores a value it has. *)
Definition Set_add (set : list string) (x : string) : list string :=
  if Array_includes set x then set else set ++ [x].

(** [Array.from(new Set(xs))] *)
Definition Array_from_Set (xs : list string) : list string :=
  fold_left Set_add xs [].

(** *** [Map<string, number>], in insertion order *)

Definition Map := list (string * nat).

(** [m.get(k)] *)
Fixpoint Map_get (m : Map) (k : string) : option nat :=
  match m with
  | [] => None
  | (k', v) :: m' => if String.eqb k k' then Some v else Map_get m' k
  end.

(** [m.set(k, v)]: an existing key keeps its position. *)
Fixpoint Map_set (m : Map) (k : string) (v : nat) : Map :=
  match m with
  | [] => [(k, v)]
  | (k', v') :: m' =>
      if String.eqb k k' then (k', v) :: m' else (k', v') :: Map_set m' k v
  end.

(** The count held for a key, 0 when there is none. *)
Definition valueOf (m : Map) (k : string) : nat :=
  match Map_get m k with Some n => n | None => 0 end.

(** *** [Array.prototype.sort] *)

Section Sort.
Context {A : Type}.
Variable comparefn : A -> A -> Number.

(** SortCompare: a [NaN] from the comparator counts as [+0]. *)
Definition SortCompare (x y : A) : Z :=
  match comparefn x y with
  | Some v => v
  | None => 0%Z
  end.

(** [x] may stay in front of [y]. *)
Definition precedes (x y : A) : Prop := (SortCompare x y <= 0)%Z.

(** [x] goes in front of the first element it does not have to follow. *)
Fixpoint sort_insert (x : A) (l : list A) : list A :=
  match l with
  | [] => [x]
  | y :: l' =>
      if (SortCompare x y <=? 0)%Z then x :: y :: l' else y :: sort_insert x l'
  end.

(** [l.sort(comparefn)]: the sort is stable, so for a consistent comparator
    the result is the one that a stable insertion sort gives.  For a
    comparator that is not consistent (one that answers [NaN] for some
    pairs only) the order is left to the engine, and nothing is stated of
    the order that this definition gives then. *)
Fixpoint Array_sort (l : list A) : list A :=
  match l with
  | [] => []
  | x :: l' => sort_insert x (Array_sort l')
  end.
End Sort.

End JS.

(* ================================================================== *)
(** ** types/github                                                     *)
(* ================================================================== *)

Record GitHubRepo := {
  id : Z;
  name : string;
  html_url : string;
  description : option string;
  stargazers_count : Z;
  forks_count : Z;
  language : option string;
  homepage : option string;
  topics : option (list string);
  updated_at : string;
  archived : bool;
  fork : bool
}.

(** [RepositoryWithTags extends GitHubRepo]: [base] holds the inherited
    fields (the [...repo] spread of [normalise]). *)
Record RepositoryWithTags := {
  base : GitHubRepo;
  allTags : list string;
  docsUrl : option string
}.

(** [TagMeta] of components/TagFilter *)
Record TagMeta := { label : string; count : nat }.

(* ================================================================== *)
(** ** hooks/useGitHubRepos                                             *)
(* ================================================================== *)

Module Hook.

Definition PER_PAGE : nat := 100.

(** [buildRequestHeaders]; [token] is [import.meta.env.VITE_GITHUB_TOKEN], a
    string or [undefined].  The headers come in the order they are set. *)
Definition buildRequestHeaders (token : option string) : list (string * string) :=
  let headers :=
    [ ("Accept", "application/vnd.github+json");
      ("X-GitHub-Api-Version", "2022-11-28") ] in
  match token with
  | Some token =>
      if 0 <? String.length (JS.trim token)
      then headers ++ [("Authorization", ("Bearer " ++ token)%string)]
      else headers
  | None => headers
  end.

(** [normalise] *)
Definition normalise (repo : GitHubRepo) : RepositoryWithTags :=
  let repoTopics := match topics repo with Some ts => ts | None => [] end in
  let normalisedTopics := map JS.toLowerCase repoTopics in
  let homepage := match homepage repo with Some h => JS.trim h | None => "" end in
  let docsUrl :=
    if 0 <? String.length homepage then homepage
    else (html_url repo ++ "#readme")%string in
  {| base := repo;
     allTags := JS.Array_from_Set normalisedTopics;
     docsUrl := Some docsUrl |}.

(** *** The network *)

(** What [fetchPage] reads of a response's headers. *)
Record Headers := {
  x_ratelimit_remaining : option string;
  x_ratelimit_reset : option string
}.

Record Response := {
  status : nat;
  headers : Headers;
  json : list GitHubRepo
}.

(** [response.ok]: the status is in the range 200-299. *)
Definition ok (response : Response) : bool :=
  (200 <=? status response) && (status response <=? 299).

(** A thrown value: an [Error] with its message, or anything else. *)
Inductive Thrown :=
| ErrorObject (message : string)
| OtherValue.

(** How one call of [fetch] settles. *)
Inductive FetchSettlement :=
| Responds (response : Response)
| Fails (reason : Thrown).

(** The URL [fetchPage] requests. *)
Definition requestUrl (username : string) (page : nat) : string :=
  ("https://api.github.com/users/" ++ username ++ "/repos?per_page="
     ++ JS.String_of_nat PER_PAGE ++ "&page=" ++ JS.String_of_nat page
     ++ "&sort=updated")%string.

(** A [null] or a string inside a template literal. *)
Definition interpolate (v : option string) : string :=
  match v with
  | Some s => s
  | None => "null"
  end.

(** The message of the [Error] thrown for a response that is not ok. *)
Definition failureMessage (response : Response) : string :=
  let rateLimitRemaining := x_ratelimit_remaining (headers response) in
  let rateLimitReset := x_ratelimit_reset (headers response) in
  let rateInfo :=
    match rateLimitRemaining with
    | Some remaining =>
        if JS.truthy remaining
        then Some ("Rate limit remaining: " ++ remaining ++ ". Resets at: "
                     ++ interpolate rateLimitReset)%string
        else None
    | None => None
    end in
  JS.trim ("Failed to fetch repositories (status "
             ++ JS.String_of_nat (status response) ++ "). "
             ++ match rateInfo with Some info => info | None => "" end)%string.

(** [fetchPage], once its [fetch] has settled: the page, or what it throws. *)
Definition fetchPage (settled : FetchSettlement) : Thrown + list GitHubRepo :=
  match settled with
  | Fails reason => inl reason
  | Responds response =>
      if negb (ok response)
      then inl (ErrorObject (failureMessage response))
      else inr (json response)
  end.

(** How the page loop of [loadRepositories] ends. *)
Inductive Settled :=
| Fulfilled (aggregated : list GitHubRepo)
| Rejected (err : Thrown).

(** The [while (true)] loop of [loadRepositories].  [network] lists how the
    successive calls of [fetch] settle; when it runs out the pending request
    is never answered and the loop does not end ([None]).  The second
    component lists the URLs requested, in order. *)
Fixpoint loadPages (username : string) (network : list FetchSettlement)
    (page : nat) (aggregated : list GitHubRepo)
  : option Settled * list string :=
  let url := requestUrl username page in
  match network with
  | [] => (None, [url])
  | settled :: later =>
      match fetchPage settled with
      | inl err => (Some (Rejected err), [url])
      | inr pageData =>
          let aggregated := aggregated ++ pageData in
          if List.length pageData <? PER_PAGE
          then (Some (Fulfilled aggregated), [url])
          else
            let (result, urls) := loadPages username later (page + 1) aggregated in
            (result, url :: urls)
      end
  end.

(** *** The state of the hook *)

Record HookState := {
  repositories : list RepositoryWithTags;
  isLoading : bool;
  error : option string
}.

Definition setRepositories (v : list RepositoryWithTags) (st : HookState) :=
  {| repositories := v; isLoading := isLoading st; error := error st |}.

Definition setIsLoading (v : bool) (st : HookState) :=
  {| repositories := repositories st; isLoading := v; error := error st |}.

Definition setError (v : option string) (st : HookState) :=
  {| repositories := repositories st; isLoading := isLoading st; error := v |}.

(** The [useState] initial values. *)
Definition initialState : HookState :=
  {| repositories := []; isLoading := true; error := None |}.

Record Options := {
  username : string;
  includeForks : bool;
  includeArchived : bool
}.

Section LoadRepositories.
(** [new Date(s).getTime()] *)
Variable Date_getTime : string -> JS.Number.
Variable options : Options.

(** The callback of [aggregated.filter]. *)
Definition keeps (repo : GitHubRepo) : bool :=
  if negb (includeForks options) && fork repo then false
  else if negb (includeArchived options) && archived repo then false
  else true.

(** The comparator of the final sort. *)
Definition byUpdatedDesc (a b : RepositoryWithTags) : JS.Number :=
  JS.Number_sub (Date_getTime (updated_at (base b)))
                (Date_getTime (updated_at (base a))).

Definition normalised (aggregated : list GitHubRepo) : list RepositoryWithTags :=
  JS.Array_sort byUpdatedDesc (map normalise (filter keeps aggregated)).

(** The two synchronous writes at the start of [loadRepositories]. *)
Definition loadRepositories_begin (st : HookState) : HookState :=
  setError None (setIsLoading true st).

(** The rest of the [try] block once the loop has ended: the state, and
    the value thrown into [catch] if any. *)
Definition tryBlock (cancelled : bool) (outcome : Settled) (st : HookState)
  : HookState * option Thrown :=
  match outcome with
  | Rejected err => (st, Some err)
  | Fulfilled aggregated =>
      if cancelled then (st, None)
      else (setRepositories (normalised aggregated) st, None)
  end.

Definition catchBlock (cancelled : bool) (err : Thrown) (st : HookState)
  : HookState :=
  if negb cancelled then
    let message :=
      match err with
      | ErrorObject message => message
      | OtherValue => "Unknown error"
      end in
    setError (Some message) st
  else st.

Definition finallyBlock (cancelled : bool) (st : HookState) : HookState :=
  if negb cancelled then setIsLoading false st else st.

(** [loadRepositories] from the end of its loop on, with the value of the
    [cancelled] flag at that moment: the state it leaves, and the value it
    lets escape, if any. *)
Definition loadRepositories_settle (cancelled : bool) (outcome : Settled)
    (st : HookState) : HookState * option Thrown :=
  let (st1, thrown) := tryBlock cancelled outcome st in
  let (st2, escaped) :=
    match thrown with
    | Some err => (catchBlock cancelled err st1, None)
    | None => (st1, None)
    end in
  (finallyBlock cancelled st2, escaped).

(** A whole cycle that nothing cancels, over a given network. *)
Definition loadRepositories (network : list FetchSettlement) (st : HookState)
  : HookState :=
  let st := loadRepositories_begin st in
  match fst (loadPages (username options) network 1 []) with
  | Some outcome => fst (loadRepositories_settle false outcome st)
  | None => st
  end.
End LoadRepositories.

(** *** The effect and its cleanup *)

(** A cycle started by the effect: its options and its [cancelled] flag. *)
Record Cycle := {
  cycleOptions : Options;
  cancelled : bool
}.

(** A consumer of the hook: the state, and the cycles started so far, the
    latest first. *)
Record Consumer := {
  hookState : HookState;
  cycles : list Cycle
}.

Inductive Event :=
| EffectRuns (options : Options)     (* mount, or the dependencies changed *)
| Unmounts
| CycleSettles (index : nat) (outcome : Settled).

Definition cancel (c : Cycle) : Cycle :=
  {| cycleOptions := cycleOptions c; cancelled := true |}.

(** The cleanup returned by the effect sets the flag of the latest cycle. *)
Definition cleanup (cs : list Cycle) : list Cycle :=
  match cs with
  | [] => []
  | latest :: older => cancel latest :: older
  end.

Definition step (Date_getTime : string -> JS.Number) (c : Consumer) (e : Event)
  : Consumer :=
  match e with
  | EffectRuns options =>
      {| hookState := loadRepositories_begin (hookState c);
         cycles := {| cycleOptions := options; cancelled := false |}
                     :: cleanup (cycles c) |}
  | Unmounts =>
      {| hookState := hookState c; cycles := cleanup (cycles c) |}
  | CycleSettles index outcome =>
      match nth_error (cycles c) index with
      | Some cycle =>
          {| hookState :=
               fst (loadRepositories_settle Date_getTime (cycleOptions cycle)
                      (cancelled cycle) outcome (hookState c));
             cycles := cycles c |}
      | None => c
      end
  end.

Definition run (Date_getTime : string -> JS.Number) (es : list Event) : Consumer :=
  fold_left (step Date_getTime) es {| hookState := initialState; cycles := [] |}.

End Hook.

(* ================================================================== *)
(** ** App                                                              *)
(* ================================================================== *)

Module App.

Record FilterState := {
  activeTag : option string;
  searchTerm : string
}.

Definition entryToTagMeta (entry : string * nat) : TagMeta :=
  {| label := fst entry; count := snd entry |}.

(** The inner [forEach] of [tags]: one more occurrence of a tag. *)
Definition countTag (counts : JS.Map) (tag : string) : JS.Map :=
  let normalised := JS.toLowerCase tag in
  JS.Map_set counts normalised
    (match JS.Map_get counts normalised with Some n => n | None => 0 end + 1).

Definition countRepo (counts : JS.Map) (repo : RepositoryWithTags) : JS.Map :=
  fold_left countTag (allTags repo) counts.

(** The [counts] map of [tags] once both loops have run. *)
Definition counts (repositories : list RepositoryWithTags) : JS.Map :=
  fold_left countRepo repositories [].

Section Tags.
(** [a.localeCompare(b)] *)
Variable localeCompare : string -> string -> Z.

Definition byLabel (a b : TagMeta) : JS.Number :=
  Some (localeCompare (label a) (label b)).

(** The [tags] memo. *)
Definition tags (repositories : list RepositoryWithTags) : list TagMeta :=
  JS.Array_sort byLabel (map entryToTagMeta (counts repositories)).
End Tags.

(** The callback of [repositories.filter] in [filteredRepositories]. *)
Definition isVisible (f : FilterState) (repo : RepositoryWithTags) : bool :=
  let matchesTag :=
    match activeTag f with
    | Some tag =>
        if JS.truthy tag then JS.Array_includes (allTags repo) tag else true
    | None => true
    end in
  if negb matchesTag then false
  else if String.length (JS.trim (searchTerm f)) =? 0 then true
  else
    let query := JS.toLowerCase (searchTerm f) in
    JS.includes (JS.toLowerCase (name (base repo))) query
    || JS.includes
         (JS.toLowerCase
            (match description (base repo) with Some d => d | None => "" end))
         query
    || existsb (fun tag => JS.includes tag query) (allTags repo).

(** The [filteredRepositories] memo. *)
Definition filteredRepositories (repositories : list RepositoryWithTags)
    (f : FilterState) : list RepositoryWithTags :=
  filter (isVisible f) repositories.

End App.

(* ================================================================== *)
(** ** A host to run the code on                                        *)
(* ================================================================== *)

(** One instance of the two host parameters, used to evaluate the code on
    concrete inputs: [Date] on the UTC timestamps the listing API sends
    (["2024-05-01T12:30:00Z"]; this host answers [NaN] to anything else), and
    a [localeCompare] that orders strings by their code units. *)
Module Host.

Definition digit (c : ascii) : option Z :=
  let n := N_of_ascii c in
  if ((48 <=? n) && (n <=? 57))%N then Some (Z.of_N n - 48)%Z else None.

Fixpoint digits (n : nat) (s : string) (acc : Z) : option (Z * string) :=
  match n, s with
  | O, _ => Some (acc, s)
  | S n', String c s' =>
      match digit c with
      | Some d => digits n' s' (acc * 10 + d)%Z
      | None => None
      end
  | S _, EmptyString => None
  end.

Definition expect (c : ascii) (s : string) : option string :=
  match s with
  | String c' s' => if Ascii.eqb c c' then Some s' else None
  | EmptyString => None
  end.

(** Days between 1970-01-01 and a date of the proleptic Gregorian calendar. *)
Definition daysFromCivil (y m d : Z) : Z :=
  (let y' := if m <=? 2 then y - 1 else y in
   let era := y' / 400 in
   let yoe := y' - era * 400 in
   let mp := if 2 <? m then m - 3 else m + 9 in
   let doy := (153 * mp + 2) / 5 + d - 1 in
   let doe := yoe * 365 + yoe / 4 - yoe / 100 + doy in
   era * 146097 + doe - 719468)%Z.

Notation "'let?' x ':=' e 'in' k" :=
  (match e with Some x => k | None => None end)
  (at level 10, x pattern, e at level 100, k at level 200, only parsing).

Definition inRange (lo v hi : Z) : bool := ((lo <=? v) && (v <=? hi))%Z.

Definition Date_getTime (s : string) : JS.Number :=
  let? (y, s) := digits 4 s 0%Z in
  let? s := expect "-" s in
  let? (m, s) := digits 2 s 0%Z in
  let? s := expect "-" s in
  let? (d, s) := digits 2 s 0%Z in
  let? s := expect "T" s in
  let? (h, s) := digits 2 s 0%Z in
  let? s := expect ":" s in
  let? (mi, s) := digits 2 s 0%Z in
  let? s := expect ":" s in
  let? (sec, s) := digits 2 s 0%Z in
  let? s := expect "Z" s in
  match s with
  | EmptyString =>
      if inRange 1 m 12 && inRange 1 d 31 && inRange 0 h 23
         && inRange 0 mi 59 && inRange 0 sec 59
      then Some ((((daysFromCivil y m d * 24 + h) * 60 + mi) * 60 + sec) * 1000)%Z
      else None
  | _ => None
  end.

Fixpoint localeCompare (a b : string) : Z :=
  match a, b with
  | EmptyString, EmptyString => 0%Z
  | EmptyString, String _ _ => (-1)%Z
  | String _ _, EmptyString => 1%Z
  | String x a', String y b' =>
      if (N_of_ascii x <? N_of_ascii y)%N then (-1)%Z
      else if (N_of_ascii y <? N_of_ascii x)%N then 1%Z
      else localeCompare a' b'
  end.

(** A raw record with the given name, topics, timestamp and flags. *)
Definition repo (name : string) (topics : option (list string))
    (homepage : option string) (updated_at : string) (fork archived : bool)
  : GitHubRepo :=
  {| id := 1; name := name;
     html_url := ("https://github.com/GeorgePearse/" ++ name)%string;
     description := None; stargazers_count := 0; forks_count := 0;
     language := None; homepage := homepage; topics := topics;
     updated_at := updated_at; archived := archived; fork := fork |}.

(** A response that is ok and carries [n] records. *)
Definition okResponse (n : nat) : Hook.Response :=
  {| Hook.status := 200;
     Hook.headers := {| Hook.x_ratelimit_remaining := None;
                        Hook.x_ratelimit_reset := None |};
     Hook.json := repeat (repo "site" None None "2024-05-01T12:30:00Z" false false) n |}.

(** A call of [fetch] answered by a page of [n] records. *)
Definition page (n : nat) : Hook.FetchSettlement :=
  Hook.Responds (okResponse n).

(** A response that is not ok, with the two rate-limit headers. *)
Definition rateLimited (remaining reset : option string) : Hook.Response :=
  {| Hook.status := 403;
     Hook.headers := {| Hook.x_ratelimit_remaining := remaining;
                        Hook.x_ratelimit_reset := reset |};
     Hook.json := [] |}.

(** The options [App] passes to the hook. *)
Definition defaults : Hook.Options :=
  {| Hook.username := "GeorgePearse";
     Hook.includeForks := false;
     Hook.includeArchived := false |}.

End Host.

(* ================================================================== *)
(** ** utils/dates                                                      *)
(* ================================================================== *)

Module Dates.

Inductive RelativeTimeFormatUnit :=
| second | minute | hour | day | week | month | year.

(** An entry of [units]; [max] is [None] for [Number.POSITIVE_INFINITY]. *)
Record UnitEntry := {
  max : option Z;
  value : Z;
  name : RelativeTimeFormatUnit
}.

Definition units : list UnitEntry :=
  [ {| max := Some 60%Z; value := 1%Z; name := second |};
    {| max := Some 3600%Z; value := 60%Z; name := minute |};
    {| max := Some 86400%Z; value := 3600%Z; name := hour |};
    {| max := Some 604800%Z; value := 86400%Z; name := day |};
    {| max := Some 2629800%Z; value := 604800%Z; name := week |};
    {| max := Some 31557600%Z; value := 2629800%Z; name := month |};
    {| max := None; value := 31557600%Z; name := year |} ].

(** [Math.round(a / b)] for an integer [a] and an integer [b > 0]: the
    nearest integer, a tie going up.  The quotient of the two doubles rounds
    to the same integer as the exact quotient for the divisors of this file
    while [a] stays below 2^52 in size, which time values less than 140000
    years apart ensure; [-0] is not told from [0]. *)
Definition Math_round_div (a : JS.Number) (b : Z) : JS.Number :=
  match a with
  | Some x => Some ((2 * x + b) / (2 * b))%Z
  | None => None
  end.

(** [Math.abs] *)
Definition Math_abs (a : JS.Number) : JS.Number :=
  match a with
  | Some x => Some (Z.abs x)
  | None => None
  end.

(** [a < max]: false when [a] is [NaN]. *)
Definition lessThan (a : JS.Number) (max : option Z) : bool :=
  match a, max with
  | Some x, Some m => (x <? m)%Z
  | Some _, None => true
  | None, _ => false
  end.

(** What [formatDistanceToNow] returns: the text of [rtf.format] for a value
    and a unit, or the text of [toLocaleDateString]. *)
Inductive Text :=
| rtf_format (value : JS.Number) (unit : RelativeTimeFormatUnit)
| toLocaleDateString.

(** The [for] loop over [units]. *)
Fixpoint firstUnit (elapsedSeconds absElapsed : JS.Number)
    (remaining : list UnitEntry) : Text :=
  match remaining with
  | [] => toLocaleDateString
  | unit :: later =>
      if lessThan absElapsed (max unit)
      then rtf_format (Math_round_div elapsedSeconds (value unit)) (name unit)
      else firstUnit elapsedSeconds absElapsed later
  end.

(** [formatDistanceToNow]; [input] is the time value of the date given and
    [now] the time value of [new Date()]. *)
Definition formatDistanceToNow (input : JS.Number) (now : Z) : Text :=
  let elapsedSeconds := Math_round_div (JS.Number_sub input (Some now)) 1000 in
  let absElapsed := Math_abs elapsedSeconds in
  firstUnit elapsedSeconds absElapsed units.

End Dates.

(* ================================================================== *)
(** ** components                                                       *)
(* ================================================================== *)

Module Components.

(** *** TagFilter *)

(** A rendered [button]: its value, its class and its text with the count. *)
Record Button := {
  buttonValue : string;
  className : string;
  buttonText : string;
  tagCount : option nat
}.

(** The class of a pill. *)
Definition pillClass (active : bool) : string :=
  JS.trim ("tag-pill " ++ (if active then "active" else ""))%string.

(** [handleClick]: what [onTagSelect] is called with for a button value. *)
Definition handleClick (value : string) : option string :=
  if String.eqb value "__ALL__" then None else Some value.

(** [activeTag === label] *)
Definition isActive (activeTag : option string) (label : string) : bool :=
  match activeTag with
  | Some tag => String.eqb tag label
  | None => false
  end.

Definition isNull (activeTag : option string) : bool :=
  match activeTag with
  | Some _ => false
  | None => true
  end.

(** [TagFilter]: the buttons, in order. *)
Definition TagFilter (tags : list TagMeta) (activeTag : option string)
  : list Button :=
  {| buttonValue := "__ALL__";
     className := pillClass (isNull activeTag);
     buttonText := "All";
     tagCount := None |}
  :: map (fun tag =>
            {| buttonValue := label tag;
               className := pillClass (isActive activeTag (label tag));
               buttonText := label tag;
               tagCount := Some (count tag) |})
         tags.

(** *** RepositoryCard *)

(** [v && ...] for a string or [null]: the string when it is truthy. *)
Definition whenTruthy (v : option string) : option string :=
  match v with
  | Some s => if JS.truthy s then Some s else None
  | None => None
  end.

(** What a card shows. *)
Record Card := {
  titleHref : string;
  titleText : string;
  docsHref : string;
  descriptionParagraph : option string;
  languageItem : option string;
  starsItem : Z;
  forksItem : Z;
  updatedItem : Dates.Text;
  tagItems : option (list string)
}.

Section Card.
Variable Date_getTime : string -> JS.Number.
Variable now : Z.

Definition RepositoryCard (repository : RepositoryWithTags) : Card :=
  let url := html_url (base repository) in
  {| titleHref := url;
     titleText := name (base repository);
     docsHref := match docsUrl repository with Some d => d | None => url end;
     descriptionParagraph := whenTruthy (description (base repository));
     languageItem := whenTruthy (language (base repository));
     starsItem := stargazers_count (base repository);
     forksItem := forks_count (base repository);
     updatedItem :=
       Dates.formatDistanceToNow
         (Date_getTime (updated_at (base repository))) now;
     tagItems :=
       if 0 <? List.length (allTags repository)
       then Some (allTags repository) else None |}.

(** *** RepositoryGrid *)

Inductive Grid :=
| EmptyState
| Cards (cards : list (Z * Card)).

(** [RepositoryGrid]: the empty state, or a card for each record under the
    key [repo.id]. *)
Definition RepositoryGrid (repositories : list RepositoryWithTags) : Grid :=
  if List.length repositories =? 0 then EmptyState
  else Cards (map (fun repo => (id (base repo), RepositoryCard repo)) repositories).
End Card.

End Components.

(* ================================================================== *)
(** ** App, what it renders                                             *)
(* ================================================================== *)

Module AppView.
Import Hook App Components.

(** The parts of the page that depend on the state. *)
Record Screen := {
  tagPanel : option (list Button);
  loadingMessage : bool;
  errorPanel : option string;
  repositoryGrid : option Grid
}.

Section Render.
Variable localeCompare : string -> string -> Z.
Variable Date_getTime : string -> JS.Number.
Variable now : Z.

(** The JSX of [App] for a state of the hook and a state of the filter. *)
Definition render (hook : HookState) (f : FilterState) : Screen :=
  let tags := tags localeCompare (repositories hook) in
  let filteredRepositories := filteredRepositories (repositories hook) f in
  {| tagPanel :=
       if 0 <? List.length tags then Some (TagFilter tags (activeTag f)) else None;
     loadingMessage := isLoading hook;
     errorPanel := whenTruthy (error hook);
     repositoryGrid :=
       if negb (isLoading hook)
          && negb (match error hook with Some e => JS.truthy e | None => false end)
       then Some (RepositoryGrid Date_getTime now filteredRepositories)
       else None |}.
End Render.

(** [onTagSelect={setActiveTag}]: a click on the button with this value. *)
Definition clickTag (value : string) (f : FilterState) : FilterState :=
  {| activeTag := handleClick value; searchTerm := searchTerm f |}.

(** [onChange] of the search field. *)
Definition typeSearch (text : string) (f : FilterState) : FilterState :=
  {| activeTag := activeTag f; searchTerm := text |}.

(** The [useState] initial values of [App]. *)
Definition initialFilter : FilterState :=
  {| activeTag := None; searchTerm := "" |}.

End AppView.

(* ================================================================== *)
(** ** scripts/cache-repos                                              *)
(* ================================================================== *)

(** The script that primes the offline cache.  What it prints is left out,
    and so are failures of the file system. *)
Module CacheScript.
Import Hook.

Definition GITHUB_USERNAME : string := "GeorgePearse".
Definition PER_PAGE : nat := 100.

(** [url.searchParams.set(name, value)]: the value of the first pair of
    that name is replaced and later pairs of that name go; a new name is
    appended. *)
Fixpoint searchParams_set (params : list (string * string))
    (name value : string) : list (string * string) :=
  match params with
  | [] => [(name, value)]
  | (n, v) :: rest =>
      if String.eqb n name
      then (n, value) :: filter (fun p => negb (String.eqb (fst p) name)) rest
      else (n, v) :: searchParams_set rest name value
  end.

(** The query of a URL; the names and values of this script hold only
    characters that the serializer leaves as they are. *)
Fixpoint serialize (params : list (string * string)) : string :=
  match params with
  | [] => ""
  | [(n, v)] => (n ++ "=" ++ v)%string
  | (n, v) :: rest => (n ++ "=" ++ v ++ "&" ++ serialize rest)%string
  end.

(** [url.toString()] for the URL of a page. *)
Definition requestUrl (page : nat) : string :=
  let url := ("https://api.github.com/users/" ++ GITHUB_USERNAME ++ "/repos")%string in
  let params := searchParams_set [] "per_page" (JS.String_of_nat PER_PAGE) in
  let params := searchParams_set params "page" (JS.String_of_nat page) in
  let params := searchParams_set params "sort" "updated" in
  (url ++ "?" ++ serialize params)%string.

(** The loop of [fetchRepositories], over the way the successive calls of
    [fetch] settle, with the URLs requested. *)
Fixpoint fetchRepositories (network : list FetchSettlement) (page : nat)
    (repositories : list GitHubRepo) : option Settled * list string :=
  let url := requestUrl page in
  match network with
  | [] => (None, [url])
  | Fails reason :: _ => (Some (Rejected reason), [url])
  | Responds response :: later =>
      if negb (ok response)
      then (Some (Rejected
                    (ErrorObject ("GitHub API error: "
                                    ++ JS.String_of_nat (status response))%string)),
            [url])
      else
        let pageData := json response in
        if List.length pageData =? 0
        then (Some (Fulfilled repositories), [url])
        else
          let repositories := repositories ++ pageData in
          if List.length pageData <? PER_PAGE
          then (Some (Fulfilled repositories), [url])
          else
            let (result, urls) := fetchRepositories later (page + 1) repositories in
            (result, url :: urls)
  end.

(** The object written to the cache file. *)
Record Cache := {
  timestamp : string;
  username : string;
  repositoryCount : nat;
  repositories : list GitHubRepo
}.

(** The part of the file system the script touches; the cache file holds
    the object that [JSON.stringify] was given. *)
Record FileSystem := {
  cacheDirExists : bool;
  cacheFile : option Cache
}.

(** How the process goes on after [cacheRepositories]. *)
Inductive Ending :=
| Returns
| Exits (code : nat).

(** [cacheRepositories]; [isoNow] is [new Date().toISOString()].  [None]
    when the fetch never settles. *)
Definition cacheRepositories (isoNow : string) (network : list FetchSettlement)
    (fs : FileSystem) : option (FileSystem * Ending) :=
  let fs :=
    if negb (cacheDirExists fs)
    then {| cacheDirExists := true; cacheFile := cacheFile fs |}
    else fs in
  match fst (fetchRepositories network 1 []) with
  | None => None
  | Some (Rejected _) => Some (fs, Exits 1)
  | Some (Fulfilled repos) =>
      let cache :=
        {| timestamp := isoNow;
           username := GITHUB_USERNAME;
           repositoryCount := List.length repos;
           repositories := repos |} in
      Some ({| cacheDirExists := cacheDirExists fs; cacheFile := Some cache |},
            Returns)
  end.

End CacheScript.

(* ================================================================== *)
(** ** The vocabulary of the statements                                 *)
(* ================================================================== *)

Module Spec.
Import JS Hook App.

(** *** Records and pages *)

(** What every record of a collection satisfies: its tags are distinct and
    in lower case. *)
Definition Normalised (r : RepositoryWithTags) : Prop :=
  NoDup (allTags r) /\ Forall (fun tag => toLowerCase tag = tag) (allTags r).

(** A response that makes the loop ask for the next page. *)
Definition FullPage (r : Response) : Prop :=
  ok r = true /\ PER_PAGE <= List.length (json r).

(** The last response of a fetch that succeeds. *)
Definition ShortPage (r : Response) : Prop :=
  ok r = true /\ List.length (json r) < PER_PAGE.

(** *** Failure and cancellation *)

(** The fixed start of the message of [fetchPage]. *)
Definition messageHead : string := "Failed to fetch repositories (status ".

(** The [rateInfo] of [fetchPage]: absent unless the remaining-rate-limit
    header is truthy. *)
Definition rateInfo (r : Response) : option string :=
  match x_ratelimit_remaining (headers r) with
  | Some remaining =>
      if truthy remaining
      then Some ("Rate limit remaining: " ++ remaining ++ ". Resets at: "
                   ++ interpolate (x_ratelimit_reset (headers r)))%string
      else None
  | None => None
  end.

(** The rate-limit clause of C3 as the specification words it. *)
Definition ReportsRateLimitWhenPresent (r : Response) (message : string) : Prop :=
  forall remaining,
    x_ratelimit_remaining (headers r) = Some remaining ->
    includes message remaining = true /\
    forall reset,
      x_ratelimit_reset (headers r) = Some reset ->
      includes message reset = true.

(** Every cycle but the latest has its flag set. *)
Definition Superseded (c : Consumer) : Prop :=
  Forall (fun cycle => cancelled cycle = true) (tl (cycles c)).

(** *** The collection *)

Section Collection.
Variable Date_getTime : string -> Number.
Variable options : Options.

(** The update time of a record, when its timestamp is a date. *)
Definition updatedTime (r : RepositoryWithTags) : Number :=
  Date_getTime (updated_at (base r)).

(** [a] was updated no earlier than [b]. *)
Definition NotOlder (a b : RepositoryWithTags) : Prop :=
  exists ta tb,
    updatedTime a = Some ta /\ updatedTime b = Some tb /\ (tb <= ta)%Z.

(** The record was updated at time [t]. *)
Definition updatedAt (t : Z) (r : RepositoryWithTags) : bool :=
  match updatedTime r with
  | Some t' => (t' =? t)%Z
  | None => false
  end.

(** The inclusion rule as the specification words it. *)
Definition included (r : GitHubRepo) : bool :=
  (includeForks options || negb (fork r))
  && (includeArchived options || negb (archived r)).

(** The comparator when every timestamp is a date. *)
Definition byTime (a b : RepositoryWithTags) : Number :=
  Some (match updatedTime b with Some t => t | None => 0 end
        - match updatedTime a with Some t => t | None => 0 end)%Z.
End Collection.

(** Six raw records in the order of the server: a fork, an archived record,
    and two records updated at the same time. *)
Definition sample : list GitHubRepo :=
  [ Host.repo "notes" (Some ["ml"]) None "2024-03-01T09:00:00Z" false false;
    Host.repo "mirror" None None "2024-06-01T09:00:00Z" true false;
    Host.repo "vision" (Some ["CV"; "ml"]) None "2024-05-01T12:30:00Z" false false;
    Host.repo "legacy" None None "2024-07-01T09:00:00Z" false true;
    Host.repo "site" None None "2024-05-01T12:30:00Z" false false;
    Host.repo "tools" None None "2024-05-20T08:00:00Z" false false ].

(** Three raw records in the order of the server; the timestamp of the
    second is not a date. *)
Definition undated : list GitHubRepo :=
  [ Host.repo "atlas" None None "2024-01-01T00:00:00Z" false false;
    Host.repo "nomad" None None "last week" false false;
    Host.repo "comet" None None "2024-03-01T00:00:00Z" false false ].

(** *** The filter *)

(** [q] occurs in [s] when case is ignored. *)
Definition ContainsIgnoringCase (s q : string) : Prop :=
  includes (toLowerCase s) (toLowerCase q) = true.

(** [repo.description ?? ""] *)
Definition descriptionText (repo : RepositoryWithTags) : string :=
  match description (base repo) with Some d => d | None => "" end.

(** The tag clause of the code: no tag (or the empty one), or a tag that is
    one of the tags of the record. *)
Definition TagClause (f : FilterState) (repo : RepositoryWithTags) : Prop :=
  activeTag f = None \/ activeTag f = Some "" \/
  exists tag, activeTag f = Some tag /\ In tag (allTags repo).

(** The tag clause as the specification words it: a match that ignores case. *)
Definition TagClauseIgnoringCase (f : FilterState) (repo : RepositoryWithTags)
  : Prop :=
  activeTag f = None \/
  exists tag, activeTag f = Some tag /\
              exists t, In t (allTags repo) /\ toLowerCase t = toLowerCase tag.

(** The search clause: nothing to search for, or the search string occurs
    in the name, the description or a tag. *)
Definition SearchClause (f : FilterState) (repo : RepositoryWithTags) : Prop :=
  trim (searchTerm f) = "" \/
  ContainsIgnoringCase (name (base repo)) (searchTerm f) \/
  ContainsIgnoringCase (descriptionText repo) (searchTerm f) \/
  exists tag, In tag (allTags repo) /\ ContainsIgnoringCase tag (searchTerm f).

(** The search clause as the specification words it, the query being the
    trimmed search string. *)
Definition SearchClauseTrimmed (f : FilterState) (repo : RepositoryWithTags)
  : Prop :=
  trim (searchTerm f) = "" \/
  ContainsIgnoringCase (name (base repo)) (trim (searchTerm f)) \/
  ContainsIgnoringCase (descriptionText repo) (trim (searchTerm f)) \/
  exists tag, In tag (allTags repo) /\
              ContainsIgnoringCase tag (trim (searchTerm f)).

(** The active tag, when there is one, is a lower-case string that is not
    empty, as the labels that the tag list offers are. *)
Definition Selectable (f : FilterState) : Prop :=
  forall tag, activeTag f = Some tag -> tag <> "" /\ toLowerCase tag = tag.

(** The two tests of [isVisible]. *)
Definition tagPasses (f : FilterState) (repo : RepositoryWithTags) : bool :=
  match activeTag f with
  | Some tag => if truthy tag then Array_includes (allTags repo) tag else true
  | None => true
  end.

Definition searchPasses (f : FilterState) (repo : RepositoryWithTags) : bool :=
  (String.length (trim (searchTerm f)) =? 0)
  || includes (toLowerCase (name (base repo))) (toLowerCase (searchTerm f))
  || includes (toLowerCase (descriptionText repo)) (toLowerCase (searchTerm f))
  || existsb (fun tag => includes tag (toLowerCase (searchTerm f))) (allTags repo).

(** [l1] is [l2] with some elements left out. *)
Inductive Subsequence {A : Type} : list A -> list A -> Prop :=
| Subsequence_nil : Subsequence [] []
| Subsequence_skip (x : A) (l1 l2 : list A) :
    Subsequence l1 l2 -> Subsequence l1 (x :: l2)
| Subsequence_keep (x : A) (l1 l2 : list A) :
    Subsequence l1 l2 -> Subsequence (x :: l1) (x :: l2).

(** *** The tag list *)

(** What the sort needs of [localeCompare]: it orders the labels. *)
Definition Ordering (localeCompare : string -> string -> Z) : Prop :=
  (forall a b, (0 < localeCompare a b)%Z -> (localeCompare b a <= 0)%Z) /\
  (forall a b c, (localeCompare a b <= 0)%Z -> (localeCompare b c <= 0)%Z ->
                 (localeCompare a c <= 0)%Z).

(** The labels come in the order of [localeCompare]. *)
Definition InLabelOrder (localeCompare : string -> string -> Z) (a b : TagMeta)
  : Prop :=
  (localeCompare (label a) (label b) <= 0)%Z.

(** Tag lists [["ml"; "cv"]] and [["ml"]]: ["cv"] once and ["ml"] twice. *)
Definition twoRecords : list RepositoryWithTags :=
  map normalise
    [ Host.repo "vision" (Some ["ml"; "cv"]) None "2024-05-01T12:30:00Z" false false;
      Host.repo "notes" (Some ["ml"]) None "2024-03-01T09:00:00Z" false false ].

End Spec.

(* ================================================================== *)
(** ** More vocabulary                                                  *)
(* ================================================================== *)

Module Words.
Import JS Hook App Components AppView.

(** Every code unit of the string is white space. *)
Fixpoint allWhiteSpace (s : string) : bool :=
  match s with
  | EmptyString => true
  | String c s' => isWhiteSpace c && allWhiteSpace s'
  end.

(** The value of the first header of that name. *)
Fixpoint headerValue (headers : list (string * string)) (name : string)
  : option string :=
  match headers with
  | [] => None
  | (n, v) :: rest => if String.eqb n name then Some v else headerValue rest name
  end.

(** The message stored for a thrown value. *)
Definition messageOf (err : Thrown) : string :=
  match err with
  | ErrorObject message => message
  | OtherValue => "Unknown error"
  end.

(** Two fetch loops end alike: with the same records, or both with a
    failure, or neither ends. *)
Definition SameOutcome (a b : option Settled) : Prop :=
  match a, b with
  | Some (Fulfilled x), Some (Fulfilled y) => x = y
  | Some (Rejected _), Some (Rejected _) => True
  | None, None => True
  | _, _ => False
  end.

(** The total of the counts of a tag list. *)
Definition totalCount (tags : list TagMeta) : nat :=
  list_sum (map count tags).

(** The buttons rendered as active. *)
Definition activeButtons (buttons : list Button) : list Button :=
  filter (fun b => String.eqb (className b) "tag-pill active") buttons.

(** The filter states [App] comes to hold: it starts with no tag and no
    search, and changes by a click on a button of the tag filter (the labels
    of the tag list, here those that are not empty, and "All") or by typing
    in the search field. *)
Inductive Held (localeCompare : string -> string -> Z) : FilterState -> Prop :=
| Held_initial : Held localeCompare initialFilter
| Held_tag (repositories : list RepositoryWithTags) (entry : TagMeta)
    (f : FilterState) :
    Held localeCompare f ->
    In entry (tags localeCompare repositories) ->
    label entry <> "" ->
    Held localeCompare (clickTag (label entry) f)
| Held_all (f : FilterState) :
    Held localeCompare f -> Held localeCompare (clickTag "__ALL__" f)
| Held_search (text : string) (f : FilterState) :
    Held localeCompare f -> Held localeCompare (typeSearch text f).

(** While the hook is loading it holds no error. *)
Definition Settling (st : HookState) : Prop :=
  isLoading st = true -> error st = None.

(** How many of the loading message, the error panel and the grid a
    screen shows. *)
Definition partsShown (s : Screen) : nat :=
  (if loadingMessage s then 1 else 0)
  + (match errorPanel s with Some _ => 1 | None => 0 end)
  + (match repositoryGrid s with Some _ => 1 | None => 0 end).

(** The least and the greatest size of the number shown with a unit. *)
Definition leastShown (unit : Dates.RelativeTimeFormatUnit) : Z :=
  match unit with
  | Dates.second => 0%Z
  | _ => 1%Z
  end.

Definition mostShown (unit : Dates.RelativeTimeFormatUnit) : option Z :=
  match unit with
  | Dates.second => Some 59%Z
  | Dates.minute => Some 60%Z
  | Dates.hour => Some 24%Z
  | Dates.day => Some 7%Z
  | Dates.week => Some 4%Z
  | Dates.month => Some 12%Z
  | Dates.year => None
  end.

(** [v] is at most the bound, when there is one. *)
Definition atMost (v : Z) (bound : option Z) : Prop :=
  match bound with
  | Some b => (v <= b)%Z
  | None => True
  end.

End Words.

(* ================================================================== *)
(** ** Facts about the built-ins                                        *)
(* ================================================================== *)

Module JSFacts.
Import JS.

(** *** Strings *)

Lemma append_assoc (a b c : string) : ((a ++ b) ++ c = a ++ (b ++ c))%string.
Proof. induction a as [|x a IH]; simpl; [reflexivity | now rewrite IH]. Qed.

Lemma append_nil_r (a : string) : (a ++ "")%string = a.
Proof. induction a as [|x a IH]; simpl; [reflexivity | now rewrite IH]. Qed.

Lemma append_not_empty_r (a b : string) : b <> "" -> (a ++ b)%string <> "".
Proof. destruct a; simpl; [auto | discriminate]. Qed.

Lemma length_zero_iff (s : string) : (String.length s =? 0) = true <-> s = "".
Proof. destruct s; simpl; split; intros H; try reflexivity; discriminate. Qed.

Lemma truthy_true_iff (s : string) : truthy s = true <-> s <> "".
Proof. destruct s; unfold truthy; simpl; split; intros H; congruence. Qed.

Lemma lowerCodeUnit_idem (c : ascii) :
  lowerCodeUnit (lowerCodeUnit c) = lowerCodeUnit c.
Proof.
  destruct c as [[] [] [] [] [] [] [] []]; vm_compute; reflexivity.
Qed.

Lemma toLowerCase_idem (s : string) : toLowerCase (toLowerCase s) = toLowerCase s.
Proof.
  induction s as [|c s IH]; simpl; [reflexivity|].
  now rewrite lowerCodeUnit_idem, IH.
Qed.

Lemma prefix_app (q b : string) : prefix q (q ++ b) = true.
Proof.
  induction q as [|c q IH]; simpl.
  - now destruct b.
  - destruct (ascii_dec c c) as [_|n]; [exact IH | now elim n].
Qed.

Lemma includes_prefix (s q : string) : prefix q s = true -> includes s q = true.
Proof. intros H. destruct s; cbn [includes]; rewrite H; reflexivity. Qed.

Lemma includes_app (a q b : string) : includes (a ++ q ++ b) q = true.
Proof.
  induction a as [|c a IH]; simpl.
  - apply includes_prefix, prefix_app.
  - rewrite IH. apply orb_true_r.
Qed.

Lemma includes_empty (s : string) : includes s "" = true.
Proof. destruct s; reflexivity. Qed.

Lemma includes_suffix (a q : string) : includes (a ++ q) q = true.
Proof. rewrite <- (append_nil_r q) at 1. apply includes_app. Qed.

Lemma trimEnd_app_keep (a b : string) :
  trimEnd b <> "" -> trimEnd (a ++ b) = (a ++ trimEnd b)%string.
Proof.
  intros Hb. induction a as [|c a IH]; simpl; [reflexivity|].
  rewrite IH. destruct (a ++ trimEnd b)%string eqn:E; [|reflexivity].
  destruct a; simpl in E; [contradiction | discriminate].
Qed.

Lemma trimEnd_app_drop (a b : string) :
  trimEnd b = "" -> trimEnd (a ++ b) = trimEnd a.
Proof.
  intros Hb. induction a as [|c a IH]; simpl; [assumption | now rewrite IH].
Qed.

(** *** [Set] *)

Lemma Array_includes_In (xs : list string) (x : string) :
  Array_includes xs x = true <-> In x xs.
Proof.
  unfold Array_includes. rewrite existsb_exists. split.
  - intros (y & Hy & E). apply String.eqb_eq in E. now subst.
  - intros H. exists x. split; [assumption | apply String.eqb_refl].
Qed.

Lemma Set_add_In (set : list string) (x y : string) :
  In y (Set_add set x) <-> In y set \/ y = x.
Proof.
  unfold Set_add. destruct (Array_includes set x) eqn:E.
  - apply Array_includes_In in E. split; [tauto|]. intros [H| ->]; assumption.
  - rewrite in_app_iff. simpl. intuition congruence.
Qed.

Lemma Set_add_NoDup (set : list string) (x : string) :
  NoDup set -> NoDup (Set_add set x).
Proof.
  intros H. unfold Set_add. destruct (Array_includes set x) eqn:E; [assumption|].
  apply NoDup_app; [assumption | repeat constructor; intros [] |].
  intros y Hy [<-|[]]. apply Array_includes_In in Hy. congruence.
Qed.

Lemma fold_Set_add_In (xs set : list string) (y : string) :
  In y (fold_left Set_add xs set) <-> In y set \/ In y xs.
Proof.
  revert set. induction xs as [|x xs IH]; intros set; simpl; [tauto|].
  rewrite IH, Set_add_In. intuition congruence.
Qed.

Lemma fold_Set_add_NoDup (xs set : list string) :
  NoDup set -> NoDup (fold_left Set_add xs set).
Proof.
  revert set. induction xs as [|x xs IH]; intros set H; simpl; [assumption|].
  apply IH, Set_add_NoDup, H.
Qed.

Lemma Array_from_Set_In (xs : list string) (y : string) :
  In y (Array_from_Set xs) <-> In y xs.
Proof. unfold Array_from_Set. rewrite fold_Set_add_In. simpl. tauto. Qed.

Lemma Array_from_Set_NoDup (xs : list string) : NoDup (Array_from_Set xs).
Proof. apply fold_Set_add_NoDup. constructor. Qed.

(** *** [Map] *)

Lemma Map_get_set (m : Map) (k k' : string) (v : nat) :
  Map_get (Map_set m k v) k' = if String.eqb k' k then Some v else Map_get m k'.
Proof.
  induction m as [|[k0 v0] m IH]; simpl; [reflexivity|].
  destruct (String.eqb_spec k k0) as [->|Hk]; simpl.
  - destruct (String.eqb k' k0); reflexivity.
  - rewrite IH. destruct (String.eqb_spec k' k0) as [->|Hk'];
      [|reflexivity].
    destruct (String.eqb_spec k0 k); [congruence | reflexivity].
Qed.

Lemma Map_set_keys (m : Map) (k k' : string) (v : nat) :
  In k' (map fst (Map_set m k v)) <-> In k' (map fst m) \/ k' = k.
Proof.
  induction m as [|[k0 v0] m IH]; simpl; [intuition congruence|].
  destruct (String.eqb_spec k k0) as [->|Hk]; simpl; [|rewrite IH];
    intuition congruence.
Qed.

Lemma Map_set_NoDup (m : Map) (k : string) (v : nat) :
  NoDup (map fst m) -> NoDup (map fst (Map_set m k v)).
Proof.
  induction m as [|[k0 v0] m IH]; simpl; intros H.
  - constructor; [simpl; tauto | constructor].
  - inversion H as [|? ? Hn Hd]; subst.
    destruct (String.eqb_spec k k0) as [->|Hk]; simpl; [assumption|].
    constructor; [|auto]. rewrite Map_set_keys. intuition congruence.
Qed.

Lemma Map_get_In (m : Map) (k : string) (v : nat) :
  NoDup (map fst m) -> In (k, v) m -> Map_get m k = Some v.
Proof.
  induction m as [|[k0 v0] m IH]; simpl; intros Hd Hin; [contradiction|].
  destruct Hin as [E|Hin].
  - inversion E; subst. now rewrite String.eqb_refl.
  - inversion Hd as [|? ? Hn Hd']; subst.
    destruct (String.eqb_spec k k0) as [->|_]; [|auto].
    elim Hn. apply in_map_iff. now exists (k0, v).
Qed.

(** *** [Array.prototype.sort] *)

Section SortFacts.
Context {A : Type}.
Variable comparefn : A -> A -> Number.

Local Abbreviation precedes := (JS.precedes comparefn).

Lemma sort_insert_perm (x : A) (l : list A) :
  Permutation (x :: l) (sort_insert comparefn x l).
Proof.
  induction l as [|y l IH]; simpl; [reflexivity|].
  destruct (SortCompare comparefn x y <=? 0)%Z; [reflexivity|].
  rewrite perm_swap. now constructor.
Qed.

Lemma Array_sort_perm (l : list A) : Permutation l (Array_sort comparefn l).
Proof.
  induction l as [|x l IH]; simpl; [constructor|].
  rewrite <- sort_insert_perm. now constructor.
Qed.

Lemma Array_sort_In (l : list A) (x : A) :
  In x (Array_sort comparefn l) <-> In x l.
Proof.
  split; apply Permutation_in;
    [symmetry|]; apply Array_sort_perm.
Qed.

(** Equal elements keep their order: the elements selected by [p] are
    those of one class of the comparator. *)
Lemma sort_insert_stable (p : A -> bool) (x : A) (l : list A) :
  (forall y, p x = true -> p y = true -> precedes x y) ->
  filter p (sort_insert comparefn x l) = filter p (x :: l).
Proof.
  intros Hp. induction l as [|y l IH]; [reflexivity|].
  cbn [sort_insert].
  destruct (SortCompare comparefn x y <=? 0)%Z eqn:E; [reflexivity|].
  cbn [filter] in *. rewrite IH.
  destruct (p x) eqn:Hx, (p y) eqn:Hy; try reflexivity.
  specialize (Hp y eq_refl Hy). unfold precedes in Hp.
  apply Z.leb_gt in E. lia.
Qed.

Lemma Array_sort_stable (p : A -> bool) (l : list A) :
  (forall x y, p x = true -> p y = true -> precedes x y) ->
  filter p (Array_sort comparefn l) = filter p l.
Proof.
  intros Hp. induction l as [|x l IH]; [reflexivity|].
  cbn [Array_sort]. rewrite sort_insert_stable by (intros; now apply Hp).
  cbn [filter]. now rewrite IH.
Qed.

Section Consistent.
Hypothesis total : forall x y, ~ precedes x y -> precedes y x.
Hypothesis trans : forall x y z, precedes x y -> precedes y z -> precedes x z.

Lemma sort_insert_sorted (x : A) (l : list A) :
  StronglySorted precedes l ->
  StronglySorted precedes (sort_insert comparefn x l).
Proof.
  induction 1 as [|y l Hs IH Hall]; simpl.
  - repeat constructor.
  - destruct (SortCompare comparefn x y <=? 0)%Z eqn:E.
    + apply Z.leb_le in E. constructor; [now constructor|].
      constructor; [exact E|].
      eapply Forall_impl; [|exact Hall]. intros z Hz. now apply trans with y.
    + apply Z.leb_gt in E. constructor; [exact IH|].
      apply Forall_forall. intros z Hz.
      apply (Permutation_in _ (Permutation_sym (sort_insert_perm x l))) in Hz.
      destruct Hz as [<-|Hz].
      * apply total. unfold precedes. lia.
      * rewrite Forall_forall in Hall. auto.
Qed.

Lemma Array_sort_sorted (l : list A) :
  StronglySorted precedes (Array_sort comparefn l).
Proof.
  induction l as [|x l IH]; simpl; [constructor|].
  now apply sort_insert_sorted.
Qed.
End Consistent.
End SortFacts.

(** The sort only looks at the comparator on the elements of the array. *)
Lemma sort_insert_ext {A} (c1 c2 : A -> A -> Number) (x : A) (l : list A) :
  (forall y, In y l -> SortCompare c1 x y = SortCompare c2 x y) ->
  sort_insert c1 x l = sort_insert c2 x l.
Proof.
  induction l as [|y l IH]; intros H; simpl; [reflexivity|].
  rewrite (H y) by now left.
  rewrite IH by (intros; apply H; now right). reflexivity.
Qed.

Lemma Array_sort_ext {A} (c1 c2 : A -> A -> Number) (l : list A) :
  (forall x y, In x l -> In y l -> SortCompare c1 x y = SortCompare c2 x y) ->
  Array_sort c1 l = Array_sort c2 l.
Proof.
  induction l as [|x l IH]; intros H; simpl; [reflexivity|].
  rewrite IH by (intros; apply H; now right).
  apply sort_insert_ext. intros y Hy. apply Array_sort_In in Hy.
  apply H; [now left | now right].
Qed.

End JSFacts.

(* ================================================================== *)
(** ** The record normaliser                                            *)
(* ================================================================== *)

Module NormaliseSpec.
Import JS JSFacts Hook Spec.

Lemma allTags_In (repo : GitHubRepo) (tag : string) :
  In tag (allTags (normalise repo)) <->
  exists topic ts, topics repo = Some ts /\ In topic ts /\ tag = toLowerCase topic.
Proof.
  unfold normalise. cbn [allTags]. rewrite Array_from_Set_In, in_map_iff.
  destruct (topics repo) as [ts|]; split.
  - intros (topic & <- & H). now exists topic, ts.
  - intros (topic & ts' & E & H & ->). inversion E; subst. now exists topic.
  - intros (? & _ & []).
  - intros (? & ? & E & _). discriminate.
Qed.

Lemma normalise_Normalised (repo : GitHubRepo) : Normalised (normalise repo).
Proof.
  split.
  - apply Array_from_Set_NoDup.
  - apply Forall_forall. intros tag H.
    apply allTags_In in H. destruct H as (topic & ts & _ & _ & ->).
    apply toLowerCase_idem.
Qed.

(** A [Set] built from distinct values lists them as they come. *)
Lemma fold_Set_add_distinct (xs set : list string) :
  NoDup (set ++ xs) -> fold_left Set_add xs set = set ++ xs.
Proof.
  revert set. induction xs as [|x xs IH]; intros set H; simpl.
  - now rewrite app_nil_r.
  - assert (E : Set_add set x = set ++ [x]).
    { unfold Set_add. destruct (Array_includes set x) eqn:I; [|reflexivity].
      apply Array_includes_In in I. apply NoDup_remove_2 in H.
      elim H. apply in_app_iff. now left. }
    rewrite E, IH; rewrite <- app_assoc; [reflexivity | exact H].
Qed.

Lemma map_toLowerCase_fixed (l : list string) :
  Forall (fun tag => toLowerCase tag = tag) l -> map toLowerCase l = l.
Proof. induction 1 as [|x l E _ IH]; simpl; [reflexivity | now rewrite E, IH]. Qed.

(** C7: [normalise] sets [docsUrl] to the trimmed homepage when the homepage
    is a string that is not empty once trimmed, and to the canonical URL
    followed by ["#readme"] otherwise; [docsUrl] is never the empty string
    (nor [null]). *)
Theorem normalise_docsUrl (repo : GitHubRepo) :
  (forall h, homepage repo = Some h -> trim h <> "" ->
             docsUrl (normalise repo) = Some (trim h)) /\
  (homepage repo = None \/ (exists h, homepage repo = Some h /\ trim h = "") ->
   docsUrl (normalise repo) = Some (html_url repo ++ "#readme")%string) /\
  docsUrl (normalise repo) <> Some "" /\
  docsUrl (normalise repo) <> None.
Proof.
  unfold normalise. cbn [docsUrl]. repeat split.
  - intros h -> Hh. destruct (trim h); [contradiction | reflexivity].
  - intros [-> | (h & -> & ->)]; reflexivity.
  - intros E. inversion E as [E']. clear E. revert E'.
    destruct (homepage repo) as [h|]; [destruct (trim h) eqn:T|]; simpl;
      try discriminate; apply append_not_empty_r; discriminate.
  - discriminate.
Qed.

Lemma normalise_docsUrl_witness :
  docsUrl (normalise (Host.repo "site" None (Some "  https://site.dev ")
                        "2024-05-01T12:30:00Z" false false))
    = Some "https://site.dev" /\
  docsUrl (normalise (Host.repo "site" None (Some "   ")
                        "2024-05-01T12:30:00Z" false false))
    = Some "https://github.com/GeorgePearse/site#readme".
Proof.
  split.
  - apply (proj1 (normalise_docsUrl
                    (Host.repo "site" None (Some "  https://site.dev ")
                       "2024-05-01T12:30:00Z" false false))
                  "  https://site.dev ");
      [reflexivity | vm_compute; discriminate].
  - apply (proj1 (proj2 (normalise_docsUrl
                           (Host.repo "site" None (Some "   ")
                              "2024-05-01T12:30:00Z" false false)))).
    right. exists "   ". split; reflexivity.
Defined.

(** C8: for every raw record, [allTags] of the normalised record holds only
    lower-case strings and no entry twice, so no two entries that differ
    only by case either; topics [["CV"; "cv"]] give the single tag ["cv"]. *)
Theorem normalise_allTags_distinct (repo : GitHubRepo) :
  Forall (fun tag => toLowerCase tag = tag) (allTags (normalise repo)) /\
  NoDup (allTags (normalise repo)) /\
  NoDup (map toLowerCase (allTags (normalise repo))) /\
  (topics repo = Some ["CV"; "cv"] -> allTags (normalise repo) = ["cv"]).
Proof.
  destruct (normalise_Normalised repo) as [Hd Hl].
  repeat split; try assumption.
  - now rewrite map_toLowerCase_fixed.
  - intros E. unfold normalise. rewrite E. reflexivity.
Qed.

Lemma normalise_allTags_distinct_witness :
  allTags (normalise (Host.repo "vision" (Some ["CV"; "cv"]) None
                        "2024-05-01T12:30:00Z" false false)) = ["cv"].
Proof.
  apply (proj2 (proj2 (proj2 (normalise_allTags_distinct
                                (Host.repo "vision" (Some ["CV"; "cv"]) None
                                   "2024-05-01T12:30:00Z" false false))))).
  reflexivity.
Defined.

(** C9: normalising is idempotent.  A normalised record handed back to
    [normalise] (it still carries the raw fields) gets the same [allTags]
    and the same [docsUrl]; and its tags, taken as topics, are the set of
    tags they already are. *)
Theorem normalise_idempotent (repo : GitHubRepo) :
  allTags (normalise (base (normalise repo))) = allTags (normalise repo) /\
  docsUrl (normalise (base (normalise repo))) = docsUrl (normalise repo) /\
  Array_from_Set (map toLowerCase (allTags (normalise repo)))
    = allTags (normalise repo).
Proof.
  repeat split.
  destruct (normalise_Normalised repo) as [Hd Hl].
  rewrite map_toLowerCase_fixed by assumption.
  unfold Array_from_Set. now rewrite fold_Set_add_distinct.
Qed.

Example normalise_twice :
  let once := normalise (Host.repo "Vision" (Some ["CV"; "ml"; "cv"; "ML"])
                           (Some " https://vision.dev ")
                           "2024-05-01T12:30:00Z" false false) in
  allTags once = ["cv"; "ml"] /\
  docsUrl once = Some "https://vision.dev" /\
  normalise (base once) = once.
Proof. repeat split. Qed.

End NormaliseSpec.

(* ================================================================== *)
(** ** The pagination fetcher                                           *)
(* ================================================================== *)

Module FetchSpec.
Import JS JSFacts Hook Spec.

Lemma loadPages_full_step (u : string) (r : Response)
    (later : list FetchSettlement) (page : nat) (aggregated : list GitHubRepo) :
  FullPage r ->
  loadPages u (Responds r :: later) page aggregated =
  (fst (loadPages u later (page + 1) (aggregated ++ json r)),
   requestUrl u page :: snd (loadPages u later (page + 1) (aggregated ++ json r))).
Proof.
  intros [Hok Hlen]. cbn [loadPages fetchPage]. rewrite Hok. cbn [negb].
  apply Nat.ltb_ge in Hlen. rewrite Hlen.
  now destruct (loadPages u later (page + 1) (aggregated ++ json r)).
Qed.

Lemma loadPages_short_step (u : string) (r : Response)
    (later : list FetchSettlement) (page : nat) (aggregated : list GitHubRepo) :
  ShortPage r ->
  loadPages u (Responds r :: later) page aggregated =
  (Some (Fulfilled (aggregated ++ json r)), [requestUrl u page]).
Proof.
  intros [Hok Hlen]. cbn [loadPages fetchPage]. rewrite Hok. cbn [negb].
  apply Nat.ltb_lt in Hlen. now rewrite Hlen.
Qed.

Lemma loadPages_failed_step (u : string) (r : Response)
    (later : list FetchSettlement) (page : nat) (aggregated : list GitHubRepo) :
  ok r = false ->
  loadPages u (Responds r :: later) page aggregated =
  (Some (Rejected (ErrorObject (failureMessage r))), [requestUrl u page]).
Proof. intros Hok. cbn [loadPages fetchPage]. now rewrite Hok. Qed.

(** Full pages are requested one after the other and appended in order. *)
Lemma loadPages_full_pages (u : string) (full : list Response)
    (rest : list FetchSettlement) (page : nat) (aggregated : list GitHubRepo) :
  Forall FullPage full ->
  loadPages u (map Responds full ++ rest) page aggregated =
  (fst (loadPages u rest (page + List.length full)
          (aggregated ++ List.concat (map json full))),
   map (requestUrl u) (seq page (List.length full))
     ++ snd (loadPages u rest (page + List.length full)
               (aggregated ++ List.concat (map json full)))).
Proof.
  intros H. revert page aggregated.
  induction H as [|r full Hr _ IH]; intros page aggregated.
  - cbn [map app List.length seq List.concat]. rewrite Nat.add_0_r, app_nil_r.
    now destruct (loadPages u rest page aggregated).
  - cbn [map app List.length seq List.concat].
    rewrite loadPages_full_step by assumption. rewrite IH.
    cbn [fst snd]. rewrite <- app_assoc.
    replace (page + 1 + List.length full) with (page + S (List.length full)) by lia.
    now rewrite Nat.add_1_r.
Qed.

(** C1: whatever the user name and the responses, the fetcher requests the
    pages in order from page 1, goes on while a page holds at least 100
    records, stops after the first page with fewer (which it keeps), and
    returns the pages it requested end to end: as many records as the pages
    hold in total, with one request per page. *)
Theorem loadPages_paginates (u : string) (full : list Response)
    (last : Response) (later : list FetchSettlement) :
  Forall FullPage full ->
  ShortPage last ->
  let pages := full ++ [last] in
  let aggregated := List.concat (map json pages) in
  loadPages u (map Responds pages ++ later) 1 [] =
    (Some (Fulfilled aggregated),
     map (requestUrl u) (seq 1 (List.length pages))) /\
  List.length aggregated = list_sum (map (fun r => List.length (json r)) pages).
Proof.
  intros Hfull Hlast pages aggregated. subst pages aggregated. split.
  - rewrite map_app, <- app_assoc. cbn [map app].
    rewrite loadPages_full_pages by assumption.
    rewrite loadPages_short_step by assumption. cbn [fst snd app].
    rewrite map_app, concat_app, length_app, seq_app, map_app.
    cbn [map List.concat List.length seq Nat.add]. now rewrite app_nil_r.
  - rewrite length_concat, map_map. reflexivity.
Qed.

(** Pages of 100, 100 and 37 records: 237 records after 3 requests.  An
    empty first page: no record after 1 request. *)
Lemma loadPages_paginates_witness :
  (exists aggregated urls,
      loadPages "GeorgePearse" [Host.page 100; Host.page 100; Host.page 37] 1 []
        = (Some (Fulfilled aggregated), urls) /\
      List.length aggregated = 237 /\ List.length urls = 3) /\
  loadPages "GeorgePearse" [Host.page 0] 1 []
    = (Some (Fulfilled []), [requestUrl "GeorgePearse" 1]).
Proof.
  split.
  - destruct (loadPages_paginates "GeorgePearse"
                [Host.okResponse 100; Host.okResponse 100] (Host.okResponse 37) [])
      as [Hrun Hlen].
    + repeat constructor; vm_compute; intros E; discriminate E.
    + split; [reflexivity | vm_compute; lia].
    + eexists. eexists.
      split; [exact Hrun | split; [rewrite Hlen|]; reflexivity].
  - apply (loadPages_paginates "GeorgePearse" [] (Host.okResponse 0) []).
    + constructor.
    + split; [reflexivity | vm_compute; lia].
Defined.

(** An empty first page: no record, and the single request for page 1. *)
Example loadPages_empty_first_page (u : string) (later : list FetchSettlement) :
  loadPages u (Host.page 0 :: later) 1 [] =
  (Some (Fulfilled []), [requestUrl u 1]).
Proof. reflexivity. Qed.

Example loadPages_100_100_37 :
  let (result, urls) :=
    loadPages "GeorgePearse" [Host.page 100; Host.page 100; Host.page 37] 1 [] in
  option_map (fun s => match s with
                       | Fulfilled aggregated => List.length aggregated
                       | Rejected _ => 0
                       end) result = Some 237 /\
  urls = map (requestUrl "GeorgePearse") [1; 2; 3].
Proof. vm_compute. split; reflexivity. Qed.

(** While every page is full the loop has not ended. *)
Lemma loadPages_all_full (u : string) (full : list Response) :
  Forall FullPage full ->
  fst (loadPages u (map Responds full) 1 []) = None.
Proof.
  intros H. rewrite <- (app_nil_r (map Responds full)).
  now rewrite loadPages_full_pages.
Qed.

End FetchSpec.

(* ================================================================== *)
(** ** The message of a failed request                                  *)
(* ================================================================== *)

Module MessageFacts.
Import JS JSFacts Hook Spec.

Lemma prefix_inv (q s : string) :
  prefix q s = true -> exists b, s = (q ++ b)%string.
Proof.
  revert s. induction q as [|c q IH]; intros s H.
  - now exists s.
  - destruct s as [|c' s]; [discriminate|]. cbn [prefix] in H.
    destruct (ascii_dec c c') as [->|]; [|discriminate].
    destruct (IH s H) as [b ->]. now exists b.
Qed.

Lemma includes_iff (s q : string) :
  includes s q = true <-> exists a b, s = (a ++ q ++ b)%string.
Proof.
  split.
  - induction s as [|c s IH]; cbn [includes]; intros H;
      apply orb_true_iff in H; destruct H as [H|H]; try discriminate.
    + apply prefix_inv in H. destruct H as [b ->]. now exists "", b.
    + apply prefix_inv in H. destruct H as [b ->]. now exists "", b.
    + destruct (IH H) as (a & b & ->). now exists (String c a), b.
  - intros (a & b & ->). apply includes_app.
Qed.

Lemma includes_within (a s b q : string) :
  includes s q = true -> includes (a ++ s ++ b) q = true.
Proof.
  intros H. apply includes_iff in H. destruct H as (a' & b' & ->).
  apply includes_iff. exists (a ++ a')%string, (b' ++ b)%string.
  now rewrite !append_assoc.
Qed.

Lemma includes_after (a s q : string) :
  includes s q = true -> includes (a ++ s) q = true.
Proof.
  intros H. rewrite <- (append_nil_r s). now apply includes_within.
Qed.

(** In front of text that ends with no white space, [trimEnd] only trims
    what follows. *)
Lemma trimEnd_app_solid (a b : string) :
  trimEnd a = a -> trimEnd (a ++ b) = (a ++ trimEnd b)%string.
Proof.
  intros Ha. destruct (trimEnd b) eqn:Hb.
  - rewrite trimEnd_app_drop by assumption. now rewrite Ha, append_nil_r.
  - rewrite trimEnd_app_keep; rewrite Hb; [reflexivity | discriminate].
Qed.

Lemma trimEnd_after_space (t : string) :
  includes (trimEnd (" " ++ t)) (trimEnd t) = true.
Proof.
  destruct (trimEnd t) eqn:Ht.
  - apply includes_empty.
  - rewrite trimEnd_app_keep; rewrite Ht; [|discriminate].
    apply includes_suffix.
Qed.

(** The message, trimmed: the fixed text, the status, and what is left of
    the rate-limit information. *)
Lemma trim_message (st info : string) :
  trim (messageHead ++ st ++ "). " ++ info) =
  (messageHead ++ st ++ ")." ++ trimEnd (" " ++ info))%string.
Proof.
  unfold trim.
  change ("). " ++ info)%string with (")." ++ " " ++ info)%string.
  assert (E : trimEnd (")." ++ " " ++ info)
              = (")." ++ trimEnd (" " ++ info))%string)
    by (apply trimEnd_app_solid; reflexivity).
  rewrite (trimEnd_app_keep messageHead), (trimEnd_app_keep st), E.
  - reflexivity.
  - rewrite E. discriminate.
  - rewrite (trimEnd_app_keep st), E by (rewrite E; discriminate).
    apply append_not_empty_r. discriminate.
Qed.

(** The rate-limit information, trimmed at its end. *)
Lemma trim_rateInfo (remaining reset : string) :
  remaining <> "" ->
  trimEnd (" " ++ "Rate limit remaining: " ++ remaining ++ ". Resets at: " ++ reset)
  = (" Rate limit remaining: " ++ remaining ++ ". Resets at:"
       ++ trimEnd (" " ++ reset))%string.
Proof.
  intros Hr.
  change (" " ++ "Rate limit remaining: " ++ remaining ++ ". Resets at: " ++ reset)%string
    with (" Rate limit remaining: " ++ remaining ++ ". Resets at:" ++ " " ++ reset)%string.
  assert (E : trimEnd (". Resets at:" ++ " " ++ reset)
              = (". Resets at:" ++ trimEnd (" " ++ reset))%string)
    by (apply trimEnd_app_solid; reflexivity).
  rewrite (trimEnd_app_keep " Rate limit remaining: "),
          (trimEnd_app_keep remaining), E.
  - reflexivity.
  - rewrite E. discriminate.
  - rewrite (trimEnd_app_keep remaining), E by (rewrite E; discriminate).
    apply append_not_empty_r. discriminate.
Qed.

End MessageFacts.

(* ================================================================== *)
(** ** The repository store                                             *)
(* ================================================================== *)

Module StoreSpec.
Import JS JSFacts Hook Spec FetchSpec MessageFacts.

(** *** Failure *)

Lemma failureMessage_eq (r : Response) :
  failureMessage r =
  (messageHead ++ String_of_nat (status r) ++ ")."
     ++ trimEnd (" " ++ match rateInfo r with Some info => info | None => "" end))%string.
Proof. unfold failureMessage. apply trim_message. Qed.

(** What the message of a failed request tells. *)
Lemma failureMessage_reports (r : Response) :
  failureMessage r <> "" /\
  includes (failureMessage r) (String_of_nat (status r)) = true /\
  (forall remaining,
      x_ratelimit_remaining (headers r) = Some remaining -> remaining <> "" ->
      includes (failureMessage r) remaining = true /\
      forall reset,
        x_ratelimit_reset (headers r) = Some reset ->
        includes (failureMessage r) (trimEnd reset) = true).
Proof.
  rewrite failureMessage_eq. split; [discriminate|]. split.
  - apply includes_app.
  - intros remaining Hrem Hne. unfold rateInfo. rewrite Hrem.
    apply truthy_true_iff in Hne. rewrite Hne.
    rewrite trim_rateInfo by now apply truthy_true_iff.
    split.
    + do 3 apply includes_after. apply includes_app.
    + intros reset ->. cbn [interpolate].
      do 6 apply includes_after. apply trimEnd_after_space.
Qed.

Lemma loadPages_fails (u : string) (full : list Response) (bad : Response)
    (later : list FetchSettlement) :
  Forall FullPage full -> ok bad = false ->
  fst (loadPages u (map Responds full ++ Responds bad :: later) 1 [])
  = Some (Rejected (ErrorObject (failureMessage bad))).
Proof.
  intros Hfull Hbad. rewrite loadPages_full_pages by assumption.
  now rewrite loadPages_failed_step.
Qed.

(** C3, amended: a response that is not ok, on whatever page of a cycle that
    is not cancelled, aborts the cycle with no partial result.  The stored
    collection keeps its value, the loading flag is cleared, and the stored
    error is a non-empty message that contains the status; when the
    remaining-rate-limit header is present with a non-empty value the
    message also contains that value and the reset-time value, the latter
    without its trailing white space. *)
Theorem failed_fetch_reported (Date_getTime : string -> Number)
    (options : Options) (full : list Response) (bad : Response)
    (later : list FetchSettlement) (st : HookState) :
  Forall FullPage full ->
  ok bad = false ->
  let st' := loadRepositories Date_getTime options
               (map Responds full ++ Responds bad :: later) st in
  repositories st' = repositories st /\
  isLoading st' = false /\
  exists message,
    error st' = Some message /\
    message <> "" /\
    includes message (String_of_nat (status bad)) = true /\
    (forall remaining,
        x_ratelimit_remaining (headers bad) = Some remaining ->
        remaining <> "" ->
        includes message remaining = true /\
        forall reset,
          x_ratelimit_reset (headers bad) = Some reset ->
          includes message (trimEnd reset) = true).
Proof.
  intros Hfull Hbad st'. subst st'. unfold loadRepositories.
  rewrite loadPages_fails by assumption.
  cbn. repeat split.
  exists (failureMessage bad). split; [reflexivity|].
  apply failureMessage_reports.
Qed.

Lemma failed_fetch_reported_witness :
  let st' := loadRepositories Host.Date_getTime Host.defaults
               [Host.page 100; Responds (Host.rateLimited (Some "0") (Some "1700000000"))]
               initialState in
  repositories st' = [] /\ isLoading st' = false /\
  exists message,
    error st' = Some message /\ includes message "403" = true /\
    includes message "0" = true /\ includes message "1700000000" = true.
Proof.
  destruct (failed_fetch_reported Host.Date_getTime Host.defaults
              [Host.okResponse 100]
              (Host.rateLimited (Some "0") (Some "1700000000")) [] initialState)
    as (Hrepos & Hload & message & Herr & _ & Hstatus & Hrate).
  - repeat constructor; vm_compute; intros E; discriminate E.
  - reflexivity.
  - destruct (Hrate "0" eq_refl) as [Hrem Hreset]; [discriminate|].
    specialize (Hreset "1700000000" eq_refl).
    split; [exact Hrepos | split; [exact Hload|]].
    exists message. repeat split; assumption.
Defined.

(** C3 as worded fails twice over.  A remaining-rate-limit header that is
    present but empty is falsy, so neither header is reported; and the final
    [trim] removes white space that ends the reset-time value. *)
Lemma failed_fetch_unreported_headers :
  (let bad := Host.rateLimited (Some "") (Some "1700000000") in
   ok bad = false /\
   error (loadRepositories Host.Date_getTime Host.defaults [Responds bad] initialState)
     = Some "Failed to fetch repositories (status 403)." /\
   ~ ReportsRateLimitWhenPresent bad "Failed to fetch repositories (status 403).") /\
  (let reset := String.append "1700000000" (String (ascii_of_nat 160) "") in
   let bad := Host.rateLimited (Some "0") (Some reset) in
   ok bad = false /\
   error (loadRepositories Host.Date_getTime Host.defaults [Responds bad] initialState)
     = Some "Failed to fetch repositories (status 403). Rate limit remaining: 0. Resets at: 1700000000" /\
   ~ ReportsRateLimitWhenPresent bad
       "Failed to fetch repositories (status 403). Rate limit remaining: 0. Resets at: 1700000000").
Proof.
  split; cbv zeta; (split; [reflexivity | split; [vm_compute; reflexivity|]]).
  - intros H. destruct (H "" eq_refl) as [_ Hreset].
    specialize (Hreset "1700000000" eq_refl). vm_compute in Hreset. discriminate.
  - intros H. destruct (H "0" eq_refl) as [_ Hreset].
    specialize (Hreset _ eq_refl). vm_compute in Hreset. discriminate.
Qed.

(** *** Cancellation *)

Lemma settle_cancelled (Date_getTime : string -> Number) (options : Options)
    (outcome : Settled) (st : HookState) :
  loadRepositories_settle Date_getTime options true outcome st = (st, None).
Proof. destruct outcome; reflexivity. Qed.

Lemma step_cancelled (Date_getTime : string -> Number) (c : Consumer)
    (index : nat) (cycle : Cycle) (outcome : Settled) :
  nth_error (cycles c) index = Some cycle ->
  cancelled cycle = true ->
  step Date_getTime c (CycleSettles index outcome) = c.
Proof.
  intros Hnth Hc. cbn [step]. rewrite Hnth, Hc, settle_cancelled.
  now destruct c.
Qed.

(** C4: once the flag of a cycle is set, by a change of the options or by
    the teardown of the consumer, the end of that cycle changes nothing: it
    writes neither the collection nor the error nor the loading flag, and
    lets no exception escape, whether the fetch gave data or failed. *)
Theorem cancelled_cycle_discarded (Date_getTime : string -> Number) :
  (forall options outcome st,
      loadRepositories_settle Date_getTime options true outcome st = (st, None)) /\
  (forall c index cycle outcome,
      nth_error (cycles c) index = Some cycle ->
      cancelled cycle = true ->
      step Date_getTime c (CycleSettles index outcome) = c).
Proof.
  split.
  - apply settle_cancelled.
  - apply step_cancelled.
Qed.

Lemma cancelled_cycle_discarded_witness :
  let stale := {| username := "octocat"; includeForks := true; includeArchived := false |} in
  let c := run Host.Date_getTime [EffectRuns stale; EffectRuns Host.defaults] in
  step Host.Date_getTime c
    (CycleSettles 1 (Fulfilled [Host.repo "site" None None
                                  "2024-05-01T12:30:00Z" false false])) = c /\
  step Host.Date_getTime c
    (CycleSettles 1 (Rejected (ErrorObject "Failed to fetch repositories (status 500)."))) = c.
Proof.
  split;
    apply (proj2 (cancelled_cycle_discarded Host.Date_getTime)
             (run Host.Date_getTime
                [EffectRuns {| username := "octocat"; includeForks := true;
                               includeArchived := false |};
                 EffectRuns Host.defaults])
             1
             {| cycleOptions := {| username := "octocat"; includeForks := true;
                                   includeArchived := false |};
                cancelled := true |});
    reflexivity.
Defined.

Lemma cleanup_Superseded (cs : list Cycle) :
  Forall (fun cycle => cancelled cycle = true) (tl cs) ->
  Forall (fun cycle => cancelled cycle = true) (cleanup cs).
Proof. destruct cs as [|latest older]; simpl; intros H; now constructor. Qed.

Lemma step_Superseded (Date_getTime : string -> Number) (c : Consumer) (e : Event) :
  Superseded c -> Superseded (step Date_getTime c e).
Proof.
  unfold Superseded. intros H. destruct e as [options| |index outcome]; cbn [step].
  - cbn [cycles tl]. now apply cleanup_Superseded.
  - cbn [cycles]. destruct (cycles c); [constructor | exact H].
  - destruct (nth_error (cycles c) index); exact H.
Qed.

Lemma run_Superseded (Date_getTime : string -> Number) (es : list Event) :
  Superseded (run Date_getTime es).
Proof.
  unfold run.
  assert (G : forall c, Superseded c ->
                        Superseded (fold_left (step Date_getTime) es c)).
  { induction es as [|e es IH]; intros c H; [exact H|].
    cbn [fold_left]. now apply IH, step_Superseded. }
  apply G. constructor.
Qed.

(** The result of a superseded cycle never reaches the state set up for the
    cycle that replaced it. *)
Lemma stale_result_discarded (Date_getTime : string -> Number)
    (es : list Event) (index : nat) (outcome : Settled) :
  0 < index ->
  step Date_getTime (run Date_getTime es) (CycleSettles index outcome)
  = run Date_getTime es.
Proof.
  intros Hi. pose proof (run_Superseded Date_getTime es) as H.
  unfold Superseded in H.
  destruct (nth_error (cycles (run Date_getTime es)) index) as [cycle|] eqn:E.
  - apply step_cancelled with cycle; [exact E|].
    destruct index as [|i]; [lia|].
    destruct (cycles (run Date_getTime es)) as [|latest older]; [discriminate|].
    cbn [nth_error tl] in *. rewrite Forall_forall in H.
    eapply H, nth_error_In, E.
  - cbn [step]. now rewrite E.
Qed.

Lemma unmounted_result_discarded (Date_getTime : string -> Number)
    (es : list Event) (index : nat) (outcome : Settled) :
  let c := step Date_getTime (run Date_getTime es) Unmounts in
  step Date_getTime c (CycleSettles index outcome) = c.
Proof.
  intros c. pose proof (run_Superseded Date_getTime es) as H.
  destruct (nth_error (cycles c) index) as [cycle|] eqn:E.
  - apply step_cancelled with cycle; [exact E|].
    apply cleanup_Superseded in H. rewrite Forall_forall in H.
    eapply H, nth_error_In, E.
  - cbn [step]. now rewrite E.
Qed.

End StoreSpec.

(* ================================================================== *)
(** ** The collection of a successful cycle                             *)
(* ================================================================== *)

Module CollectionSpec.
Import JS JSFacts Hook Spec.

Lemma StronglySorted_impl_in {A} (R S : A -> A -> Prop) (l : list A) :
  (forall x y, In x l -> In y l -> R x y -> S x y) ->
  StronglySorted R l -> StronglySorted S l.
Proof.
  intros H Hs. induction Hs as [|x l Hs IH Hall]; constructor.
  - apply IH. intros a b Ha Hb. apply H; now right.
  - rewrite Forall_forall in *. intros y Hy.
    apply H; [now left | now right | now apply Hall].
Qed.

Section Collection.
Variable Date_getTime : string -> Number.
Variable options : Options.

Local Abbreviation updatedTime := (Spec.updatedTime Date_getTime).
Local Abbreviation NotOlder := (Spec.NotOlder Date_getTime).
Local Abbreviation updatedAt := (Spec.updatedAt Date_getTime).
Local Abbreviation included := (Spec.included options).
Local Abbreviation byTime := (Spec.byTime Date_getTime).

Lemma keeps_included (r : GitHubRepo) : keeps options r = included r.
Proof.
  unfold keeps, included.
  now destruct (includeForks options), (includeArchived options),
               (fork r), (archived r).
Qed.

Lemma byTime_total (x y : RepositoryWithTags) :
  ~ precedes byTime x y -> precedes byTime y x.
Proof. unfold precedes, SortCompare, byTime. lia. Qed.

Lemma byTime_trans (x y z : RepositoryWithTags) :
  precedes byTime x y -> precedes byTime y z -> precedes byTime x z.
Proof. unfold precedes, SortCompare, byTime. lia. Qed.

Lemma byUpdatedDesc_byTime (x y : RepositoryWithTags) :
  updatedTime x <> None -> updatedTime y <> None ->
  SortCompare (byUpdatedDesc Date_getTime) x y = SortCompare byTime x y.
Proof.
  unfold SortCompare, byUpdatedDesc, byTime, updatedTime, Number_sub.
  intros Hx Hy.
  destruct (Date_getTime (updated_at (base x))),
           (Date_getTime (updated_at (base y))); congruence.
Qed.

Lemma byTime_NotOlder (x y : RepositoryWithTags) :
  updatedTime x <> None -> updatedTime y <> None ->
  precedes byTime x y -> NotOlder x y.
Proof.
  unfold precedes, SortCompare, byTime, NotOlder. intros Hx Hy.
  destruct (updatedTime x) as [tx|], (updatedTime y) as [ty|];
    try congruence.
  intros H. exists tx, ty. repeat split. lia.
Qed.

Lemma stable_class (t : Z) (x y : RepositoryWithTags) :
  updatedAt t x = true -> updatedAt t y = true ->
  precedes (byUpdatedDesc Date_getTime) x y.
Proof.
  unfold updatedAt, precedes, SortCompare, byUpdatedDesc, updatedTime, Number_sub.
  destruct (Date_getTime (updated_at (base x))),
           (Date_getTime (updated_at (base y))); try discriminate.
  rewrite !Z.eqb_eq. lia.
Qed.

(** C5, amended: after a successful cycle that is not cancelled, over
    records whose timestamps are all dates, the stored
    collection holds exactly the aggregated records that pass the inclusion
    rule (a fork only with [includeForks], an archived record only with
    [includeArchived]), each normalised; it is sorted by update time, the
    latest first; and the sort is stable: records updated at the same time
    stay in the order of the aggregation. *)
Theorem collection_filtered_sorted (aggregated : list GitHubRepo)
    (st : HookState) :
  Forall (fun r => Date_getTime (updated_at r) <> None) aggregated ->
  let kept := map normalise (filter included aggregated) in
  let st' := fst (loadRepositories_settle Date_getTime options false
                    (Fulfilled aggregated) st) in
  Permutation kept (repositories st') /\
  StronglySorted NotOlder (repositories st') /\
  (forall t, filter (updatedAt t) (repositories st') = filter (updatedAt t) kept) /\
  isLoading st' = false /\ error st' = error st.
Proof.
  intros Hvalid kept st'. subst st'. cbn.
  unfold normalised.
  rewrite (filter_ext _ _ keeps_included). fold kept.
  assert (Hk : forall x, In x kept -> updatedTime x <> None).
  { intros x Hx. apply in_map_iff in Hx. destruct Hx as (r & <- & Hr).
    apply filter_In in Hr. rewrite Forall_forall in Hvalid.
    apply Hvalid, Hr. }
  repeat split.
  - apply Array_sort_perm.
  - rewrite (Array_sort_ext _ byTime)
      by (intros; apply byUpdatedDesc_byTime; auto).
    apply StronglySorted_impl_in with (R := precedes byTime).
    + intros x y Hx Hy. rewrite Array_sort_In in Hx, Hy.
      apply byTime_NotOlder; auto.
    + apply Array_sort_sorted; [exact byTime_total | exact byTime_trans].
  - intros t. apply Array_sort_stable. apply stable_class.
Qed.
End Collection.

Lemma StronglySorted_related {A} (R : A -> A -> Prop) (l : list A) (x y : A) :
  StronglySorted R l -> In x l -> In y l -> x <> y -> R x y \/ R y x.
Proof.
  induction 1 as [|z l Hs IH Hall]; intros Hx Hy Hne; [destruct Hx|].
  rewrite Forall_forall in Hall.
  destruct Hx as [<-|Hx], Hy as [<-|Hy]; auto; contradiction.
Qed.

(** C5 as worded fails when a timestamp is not a date: no order of the
    records kept sorts them by update time, whatever the sort does with the
    record that has none, and so the stored collection is not sorted. *)
Lemma collection_unsorted_without_date :
  let kept := map normalise (filter (included Host.defaults) undated) in
  let stored :=
    repositories
      (fst (loadRepositories_settle Host.Date_getTime Host.defaults false
              (Fulfilled undated) initialState)) in
  (forall l, Permutation kept l ->
             ~ StronglySorted (NotOlder Host.Date_getTime) l) /\
  Permutation kept stored /\
  ~ StronglySorted (NotOlder Host.Date_getTime) stored.
Proof.
  intros kept stored.
  assert (H : forall l, Permutation kept l ->
                        ~ StronglySorted (NotOlder Host.Date_getTime) l).
  { intros l P Hs.
    destruct (StronglySorted_related _ l
                (normalise (Host.repo "atlas" None None
                              "2024-01-01T00:00:00Z" false false))
                (normalise (Host.repo "nomad" None None
                              "last week" false false)) Hs)
      as [(ta & tb & _ & E & _)|(ta & tb & E & _)];
      try discriminate E.
    - apply (Permutation_in _ P). left. reflexivity.
    - apply (Permutation_in _ P). right. left. reflexivity.
    - intros E. inversion E. }
  assert (P : Permutation kept stored) by apply Array_sort_perm.
  split; [exact H | split; [exact P | exact (H stored P)]].
Qed.

Lemma collection_filtered_sorted_witness :
  let coll := repositories
                (fst (loadRepositories_settle Host.Date_getTime Host.defaults
                        false (Fulfilled sample) initialState)) in
  StronglySorted (NotOlder Host.Date_getTime) coll /\
  filter (updatedAt Host.Date_getTime 1714566600000) coll
  = map normalise
      [ Host.repo "vision" (Some ["CV"; "ml"]) None "2024-05-01T12:30:00Z" false false;
        Host.repo "site" None None "2024-05-01T12:30:00Z" false false ].
Proof.
  destruct (collection_filtered_sorted Host.Date_getTime Host.defaults
              sample initialState) as (_ & Hsorted & Hstable & _).
  - repeat constructor; vm_compute; intros E; discriminate E.
  - split; [exact Hsorted|]. rewrite Hstable. reflexivity.
Defined.

(** Timestamps T1 > T2 > T3 come out as T1, T2, T3; forks and archived
    records are left out by default; ties keep the order of the server. *)
Example collection_of_sample :
  map (fun r => name (base r))
      (normalised Host.Date_getTime Host.defaults sample)
  = ["tools"; "vision"; "site"; "notes"] /\
  map (fun r => name (base r))
      (normalised Host.Date_getTime
         {| username := "GeorgePearse"; includeForks := true; includeArchived := true |}
         sample)
  = ["legacy"; "mirror"; "tools"; "vision"; "site"; "notes"].
Proof. split; vm_compute; reflexivity. Qed.

(** With timestamps that are all dates the collection is sorted. *)
Lemma normalised_sorted (Date_getTime : string -> Number) (options : Options)
    (aggregated : list GitHubRepo) :
  Forall (fun r => Date_getTime (updated_at r) <> None) aggregated ->
  StronglySorted (NotOlder Date_getTime)
    (normalised Date_getTime options aggregated).
Proof.
  intros Hvalid. unfold normalised.
  assert (Hk : forall x, In x (map normalise (filter (keeps options) aggregated)) ->
                         updatedTime Date_getTime x <> None).
  { intros x Hx. apply in_map_iff in Hx. destruct Hx as (r & <- & Hr).
    apply filter_In in Hr. rewrite Forall_forall in Hvalid.
    apply Hvalid, Hr. }
  rewrite (Array_sort_ext _ (byTime Date_getTime))
    by (intros; apply byUpdatedDesc_byTime; auto).
  apply StronglySorted_impl_in with (R := precedes (byTime Date_getTime)).
  - intros x y Hx Hy. rewrite Array_sort_In in Hx, Hy.
    apply byTime_NotOlder; auto.
  - apply Array_sort_sorted;
      [exact (byTime_total Date_getTime) | exact (byTime_trans Date_getTime)].
Qed.

End CollectionSpec.

(* ================================================================== *)
(** ** The filter engine                                                *)
(* ================================================================== *)

Module FilterSpec.
Import JS JSFacts Hook App Spec NormaliseSpec.

Lemma isVisible_split (f : FilterState) (repo : RepositoryWithTags) :
  isVisible f repo = tagPasses f repo && searchPasses f repo.
Proof.
  unfold isVisible, tagPasses, searchPasses, descriptionText.
  destruct (match activeTag f with
            | Some tag => if truthy tag then Array_includes (allTags repo) tag else true
            | None => true
            end); cbn [negb andb]; [|reflexivity].
  destruct (String.length (trim (searchTerm f)) =? 0); cbn [orb]; reflexivity.
Qed.

Lemma tagPasses_iff (f : FilterState) (repo : RepositoryWithTags) :
  tagPasses f repo = true <-> TagClause f repo.
Proof.
  unfold tagPasses, TagClause. destruct (activeTag f) as [tag|]; [|tauto].
  destruct (truthy tag) eqn:T.
  - rewrite Array_includes_In. apply truthy_true_iff in T. split.
    + intros H. right. right. now exists tag.
    + intros [H|[H|(t & H & Hin)]]; congruence.
  - assert (tag = "") as -> by (destruct tag; [reflexivity | discriminate]).
    tauto.
Qed.

Lemma searchPasses_iff (f : FilterState) (repo : RepositoryWithTags) :
  Normalised repo ->
  searchPasses f repo = true <-> SearchClause f repo.
Proof.
  intros [_ Hlower]. rewrite Forall_forall in Hlower.
  unfold searchPasses, SearchClause, ContainsIgnoringCase.
  rewrite !orb_true_iff, length_zero_iff, existsb_exists.
  split.
  - intros [[[H|H]|H]|(tag & Hin & H)]; auto.
    right. right. right. exists tag. rewrite (Hlower tag Hin). auto.
  - intros [H|[H|[H|(tag & Hin & H)]]]; auto.
    right. exists tag. rewrite (Hlower tag Hin) in H. auto.
Qed.

(** With a tag in lower case, as every label of the tag list is, the exact
    match is the match that ignores case. *)
Lemma TagClause_lower_case (f : FilterState) (repo : RepositoryWithTags) :
  Normalised repo ->
  (forall tag, activeTag f = Some tag -> tag <> "" /\ toLowerCase tag = tag) ->
  TagClause f repo <-> TagClauseIgnoringCase f repo.
Proof.
  intros [_ Hlower] Htag. rewrite Forall_forall in Hlower.
  unfold TagClause, TagClauseIgnoringCase. split.
  - intros [H|[H|(tag & H & Hin)]]; [now left | now apply Htag in H |].
    right. exists tag. split; [assumption|]. now exists tag.
  - intros [H|(tag & H & t & Hin & E)]; [now left|].
    right. right. exists tag. split; [assumption|].
    destruct (Htag tag H) as [_ Ht]. rewrite (Hlower t Hin), Ht in E. now subst.
Qed.

(** C2, amended: for a normalised record and a filter state whose active
    tag, when one is set, is a lower-case string that is not empty (as it is
    in every state [App] reaches by clicks on the labels of its tag list),
    the record is visible exactly when both clauses hold.  (1) No active tag
    is set, or the [allTags] of the record hold the active tag, case ignored.
    (2) The search string is empty once trimmed, or the search string as it
    was typed, in lower case but not trimmed, occurs, case ignored, in the
    name, in the description (the empty string when there is none) or in one
    of the tags. *)
Theorem isVisible_iff (raw : GitHubRepo) (f : FilterState) :
  Selectable f ->
  (isVisible f (normalise raw) = true <->
   TagClauseIgnoringCase f (normalise raw) /\ SearchClause f (normalise raw)).
Proof.
  intros Hf.
  rewrite isVisible_split, andb_true_iff, tagPasses_iff.
  rewrite searchPasses_iff by apply normalise_Normalised.
  rewrite (TagClause_lower_case f (normalise raw))
    by (try apply normalise_Normalised; exact Hf).
  reflexivity.
Qed.

Lemma isVisible_iff_witness :
  Selectable {| activeTag := Some "ml"; searchTerm := " Vis" |} /\
  isVisible {| activeTag := Some "ml"; searchTerm := " Vis" |}
    (normalise (Host.repo "Computer Vision" (Some ["CV"; "ML"]) None
                  "2024-05-01T12:30:00Z" false false)) = true.
Proof.
  assert (Hf : Selectable {| activeTag := Some "ml"; searchTerm := " Vis" |}).
  { intros tag E. inversion E; subst tag. split; [discriminate | reflexivity]. }
  split; [exact Hf|].
  apply (proj2 (isVisible_iff
                  (Host.repo "Computer Vision" (Some ["CV"; "ML"]) None
                     "2024-05-01T12:30:00Z" false false)
                  {| activeTag := Some "ml"; searchTerm := " Vis" |} Hf)).
  split.
  - right. exists "ml". split; [reflexivity|].
    exists "ml". split; [right; left|]; reflexivity.
  - right. left. reflexivity.
Defined.

(** C2 as worded fails on the search clause.  With no active tag and the
    search ["Vis "], typed with a space at its end, the trimmed search occurs
    in the name ["Computer Vision"], yet the record is hidden: the code
    trims the search string only to see whether it is empty, and looks for
    the string as it was typed. *)
Lemma isVisible_query_not_trimmed :
  let f := {| activeTag := None; searchTerm := "Vis " |} in
  let repo := normalise (Host.repo "Computer Vision" (Some ["cv"]) None
                           "2024-05-01T12:30:00Z" false false) in
  isVisible f repo = false /\
  ~ (isVisible f repo = true <->
     TagClauseIgnoringCase f repo /\ SearchClauseTrimmed f repo).
Proof.
  intros f repo. split; [reflexivity|]. intros [_ H].
  assert (E : isVisible f repo = true).
  { apply H. split.
    - left. reflexivity.
    - right. left. reflexivity. }
  vm_compute in E. discriminate E.
Qed.

(** *** Order *)

Lemma filter_Subsequence {A} (p : A -> bool) (l : list A) :
  Subsequence (filter p l) l.
Proof.
  induction l as [|x l IH]; simpl; [constructor|].
  destruct (p x); now constructor.
Qed.

Lemma filter_all {A} (p : A -> bool) (l : list A) :
  (forall x, In x l -> p x = true) -> filter p l = l.
Proof.
  induction l as [|x l IH]; intros H; simpl; [reflexivity|].
  rewrite (H x) by now left. f_equal. apply IH. intros y Hy. apply H. now right.
Qed.

(** C10: the visible records are a subsequence of the collection, in the
    order of the collection: filtering leaves records out and never moves
    one.  With no active tag and an empty search string the whole collection
    is visible, unchanged. *)
Theorem filteredRepositories_keeps_order (repositories : list RepositoryWithTags)
    (f : FilterState) :
  Subsequence (filteredRepositories repositories f) repositories /\
  filteredRepositories repositories {| activeTag := None; searchTerm := "" |}
  = repositories.
Proof.
  split.
  - apply filter_Subsequence.
  - apply filter_all. reflexivity.
Qed.

Example filteredRepositories_sample :
  let coll := normalised Host.Date_getTime Host.defaults Spec.sample in
  map (fun r => name (base r))
      (filteredRepositories coll {| activeTag := Some "ml"; searchTerm := "" |})
  = ["vision"; "notes"] /\
  map (fun r => name (base r))
      (filteredRepositories coll {| activeTag := None; searchTerm := "S" |})
  = ["tools"; "vision"; "site"; "notes"] /\
  map (fun r => name (base r))
      (filteredRepositories coll {| activeTag := Some "ml"; searchTerm := "VIS" |})
  = ["vision"].
Proof. repeat split; vm_compute; reflexivity. Qed.

End FilterSpec.

(* ================================================================== *)
(** ** The tag aggregator                                               *)
(* ================================================================== *)

Module TagSpec.
Import JS JSFacts Hook App Spec NormaliseSpec.

(** *** Counting *)

Lemma countTag_valueOf (m : Map) (tag k : string) :
  valueOf (countTag m tag) k =
  valueOf m k + (if String.eqb k (toLowerCase tag) then 1 else 0).
Proof.
  unfold countTag, valueOf at 1. rewrite Map_get_set.
  destruct (String.eqb_spec k (toLowerCase tag)) as [->|_].
  - reflexivity.
  - unfold valueOf. lia.
Qed.

Lemma countTag_keys (m : Map) (tag k : string) :
  In k (map fst (countTag m tag)) <-> In k (map fst m) \/ k = toLowerCase tag.
Proof. apply Map_set_keys. Qed.

Lemma countTag_NoDup (m : Map) (tag : string) :
  NoDup (map fst m) -> NoDup (map fst (countTag m tag)).
Proof. apply Map_set_NoDup. Qed.

Lemma count_valueOf (ts : list string) (m : Map) (k : string) :
  valueOf (fold_left countTag ts m) k =
  valueOf m k + count_occ string_dec (map toLowerCase ts) k.
Proof.
  revert m. induction ts as [|t ts IH]; intros m; cbn [fold_left map].
  - cbn. lia.
  - rewrite IH, countTag_valueOf.
    destruct (String.eqb_spec k (toLowerCase t)) as [->|Hk].
    + rewrite count_occ_cons_eq by reflexivity. lia.
    + rewrite count_occ_cons_neq by congruence. lia.
Qed.

Lemma count_keys (ts : list string) (m : Map) (k : string) :
  In k (map fst (fold_left countTag ts m)) <->
  In k (map fst m) \/ In k (map toLowerCase ts).
Proof.
  revert m. induction ts as [|t ts IH]; intros m; cbn [fold_left map].
  - simpl. tauto.
  - rewrite IH, countTag_keys. simpl. intuition congruence.
Qed.

Lemma count_NoDup (ts : list string) (m : Map) :
  NoDup (map fst m) -> NoDup (map fst (fold_left countTag ts m)).
Proof.
  revert m. induction ts as [|t ts IH]; intros m H; cbn [fold_left];
    [assumption | now apply IH, countTag_NoDup].
Qed.

(** The two nested loops visit the tags of the records in order. *)
Lemma countRepo_flat (repositories : list RepositoryWithTags) (m : Map) :
  fold_left countRepo repositories m =
  fold_left countTag (flat_map allTags repositories) m.
Proof.
  revert m. induction repositories as [|r rs IH]; intros m; cbn [fold_left flat_map].
  - reflexivity.
  - rewrite fold_left_app. apply IH.
Qed.

Lemma count_occ_distinct (l : list string) (k : string) :
  NoDup l ->
  count_occ string_dec l k = if Array_includes l k then 1 else 0.
Proof.
  intros H. destruct (Array_includes l k) eqn:E.
  - apply Array_includes_In in E.
    apply (count_occ_In string_dec) in E.
    rewrite (NoDup_count_occ string_dec) in H. specialize (H k). lia.
  - apply count_occ_not_In. intros Hin.
    apply Array_includes_In in Hin. congruence.
Qed.

Lemma count_occ_records (repositories : list RepositoryWithTags) (k : string) :
  Forall Normalised repositories ->
  count_occ string_dec (flat_map allTags repositories) k =
  List.length (filter (fun r => Array_includes (allTags r) k) repositories).
Proof.
  induction 1 as [|r rs [Hd _] _ IH]; cbn [flat_map filter]; [reflexivity|].
  rewrite count_occ_app, IH, count_occ_distinct by assumption.
  destruct (Array_includes (allTags r) k); reflexivity.
Qed.

Lemma tags_lower_case (repositories : list RepositoryWithTags) :
  Forall Normalised repositories ->
  map toLowerCase (flat_map allTags repositories) = flat_map allTags repositories.
Proof.
  intros H. apply map_toLowerCase_fixed.
  apply Forall_forall. intros t Ht. apply in_flat_map in Ht.
  destruct Ht as (r & Hr & Ht). rewrite Forall_forall in H.
  destruct (H r Hr) as [_ Hl]. rewrite Forall_forall in Hl. auto.
Qed.

(** *** The comparator *)

Lemma Host_localeCompare_Ordering : Ordering Host.localeCompare.
Proof.
  split.
  - induction a as [|x a IH]; intros [|y b]; simpl; try lia.
    destruct (N.ltb_spec (N_of_ascii x) (N_of_ascii y)),
             (N.ltb_spec (N_of_ascii y) (N_of_ascii x)); try lia.
    apply IH.
  - induction a as [|x a IH]; intros [|y b] [|z c]; simpl; try lia.
    destruct (N.ltb_spec (N_of_ascii x) (N_of_ascii y)),
             (N.ltb_spec (N_of_ascii y) (N_of_ascii x)),
             (N.ltb_spec (N_of_ascii y) (N_of_ascii z)),
             (N.ltb_spec (N_of_ascii z) (N_of_ascii y)),
             (N.ltb_spec (N_of_ascii x) (N_of_ascii z)),
             (N.ltb_spec (N_of_ascii z) (N_of_ascii x)); try lia.
    apply IH.
Qed.

Section Aggregate.
Variable localeCompare : string -> string -> Z.
Variable repositories : list RepositoryWithTags.
Hypothesis normalised : Forall Normalised repositories.

Local Abbreviation counts := (App.counts repositories).

Lemma counts_NoDup : NoDup (map fst counts).
Proof.
  unfold App.counts. rewrite countRepo_flat. apply count_NoDup. apply NoDup_nil.
Qed.

Lemma counts_keys (k : string) :
  In k (map fst counts) <-> exists r, In r repositories /\ In k (allTags r).
Proof.
  unfold App.counts. rewrite countRepo_flat, count_keys, tags_lower_case by assumption.
  rewrite in_flat_map. simpl. tauto.
Qed.

Lemma counts_value (k : string) (v : nat) :
  In (k, v) counts ->
  v = List.length (filter (fun r => Array_includes (allTags r) k) repositories).
Proof.
  intros H. apply Map_get_In in H; [|apply counts_NoDup].
  assert (E : valueOf counts k = v) by (unfold valueOf; now rewrite H).
  rewrite <- E. unfold App.counts.
  rewrite countRepo_flat, count_valueOf, tags_lower_case by assumption.
  now rewrite count_occ_records.
Qed.

Lemma tags_perm :
  Permutation (map entryToTagMeta counts) (tags localeCompare repositories).
Proof. apply Array_sort_perm. Qed.

Lemma tags_labels :
  Permutation (map fst counts) (map label (tags localeCompare repositories)).
Proof.
  rewrite <- tags_perm, map_map. apply Permutation_refl.
Qed.

(** C6: the tag aggregator gives one entry for each tag that occurs in the
    [allTags] of some record of the collection; the count of an entry is
    the number of records whose [allTags] holds its label; and the entries
    are sorted by label in the order of [localeCompare]. *)
Theorem tags_counts_sorted :
  Ordering localeCompare ->
  let result := tags localeCompare repositories in
  NoDup (map label result) /\
  (forall tag, In tag (map label result) <->
               exists r, In r repositories /\ In tag (allTags r)) /\
  (forall entry, In entry result ->
     count entry =
     List.length (filter (fun r => Array_includes (allTags r) (label entry))
                    repositories)) /\
  StronglySorted (InLabelOrder localeCompare) result.
Proof.
  intros [Htotal Htrans] result. subst result. repeat split.
  - eapply Permutation_NoDup; [apply tags_labels | apply counts_NoDup].
  - intros H. apply counts_keys.
    eapply Permutation_in; [symmetry; apply tags_labels | exact H].
  - intros H. apply counts_keys in H.
    eapply Permutation_in; [apply tags_labels | exact H].
  - intros entry H.
    apply (Permutation_in _ (Permutation_sym tags_perm)) in H.
    apply in_map_iff in H. destruct H as ([k v] & <- & H).
    now apply counts_value.
  - apply (Array_sort_sorted (byLabel localeCompare)).
    + intros x y H. unfold precedes, SortCompare, byLabel in *.
      apply Htotal. lia.
    + intros x y z. unfold precedes, SortCompare, byLabel. apply Htrans.
Qed.
End Aggregate.

Lemma tags_counts_sorted_witness :
  let result := tags Host.localeCompare twoRecords in
  NoDup (map label result) /\
  StronglySorted (InLabelOrder Host.localeCompare) result /\
  forall entry, In entry result ->
    count entry =
    List.length (filter (fun r => Array_includes (allTags r) (label entry)) twoRecords).
Proof.
  destruct (tags_counts_sorted Host.localeCompare twoRecords)
    as (Hd & _ & Hc & Hs).
  - unfold twoRecords. cbn [map].
    constructor; [apply normalise_Normalised|].
    constructor; [apply normalise_Normalised | constructor].
  - exact Host_localeCompare_Ordering.
  - split; [exact Hd | split; [exact Hs | exact Hc]].
Defined.

Example tags_of_two_records :
  tags Host.localeCompare twoRecords =
  [ {| label := "cv"; count := 1 |}; {| label := "ml"; count := 2 |} ].
Proof. reflexivity. Qed.

End TagSpec.

(* ================================================================== *)
(** ** More about the pagination fetcher                                *)
(* ================================================================== *)

Module FetchFacts.
Import JS JSFacts Hook Spec Words FetchSpec.

Lemma loadPages_nil (u : string) (page : nat) (aggregated : list GitHubRepo) :
  loadPages u [] page aggregated = (None, [requestUrl u page]).
Proof. reflexivity. Qed.

Lemma loadPages_rejected_step (u : string) (settled : FetchSettlement)
    (later : list FetchSettlement) (page : nat) (aggregated : list GitHubRepo)
    (err : Thrown) :
  fetchPage settled = inl err ->
  loadPages u (settled :: later) page aggregated
  = (Some (Rejected err), [requestUrl u page]).
Proof. intros H. cbn [loadPages]. now rewrite H. Qed.

(** A settlement is a full page, a short page or a failure. *)
Lemma settlement_cases (settled : FetchSettlement) :
  (exists r, settled = Responds r /\ FullPage r) \/
  (exists r, settled = Responds r /\ ShortPage r) \/
  (exists err, fetchPage settled = inl err).
Proof.
  destruct settled as [r|reason]; [|right; right; now exists reason].
  destruct (ok r) eqn:Hok.
  - destruct (Nat.lt_ge_cases (List.length (json r)) PER_PAGE).
    + right. left. exists r. now repeat split.
    + left. exists r. now repeat split.
  - right. right. exists (ErrorObject (failureMessage r)).
    cbn [fetchPage]. now rewrite Hok.
Qed.

Lemma loadPages_requests_from (u : string) (network : list FetchSettlement) :
  forall page aggregated,
    let urls := snd (loadPages u network page aggregated) in
    urls = map (requestUrl u) (seq page (List.length urls)) /\
    1 <= List.length urls <= List.length network + 1 /\
    (fst (loadPages u network page aggregated) = None <->
     List.length urls = List.length network + 1).
Proof.
  induction network as [|settled later IH]; intros page aggregated urls;
    subst urls.
  - rewrite loadPages_nil. cbn. repeat split; lia.
  - destruct (settlement_cases settled)
      as [(r & -> & Hr)|[(r & -> & Hr)|(err & Herr)]].
    + rewrite loadPages_full_step by assumption. cbn [fst snd List.length].
      destruct (IH (page + 1) (aggregated ++ json r)) as (Hurls & Hlen & Hnone).
      cbn [seq map]. rewrite Nat.add_1_r in *. rewrite <- Hurls.
      repeat split; try lia.
      * intros H. apply Hnone in H. lia.
      * intros H. apply Hnone. lia.
    + rewrite loadPages_short_step by assumption. cbn.
      repeat split; try lia; discriminate.
    + rewrite (loadPages_rejected_step _ _ _ _ _ _ Herr). cbn.
      repeat split; try lia; discriminate.
Qed.

(** Whatever the network does, the pages requested are page 1, 2, 3, ...
    with no gap and none twice; there is at least one request and at most
    one more than there are answers, the latter exactly when the loop is
    left waiting for an answer. *)
Theorem loadPages_requests_in_order (u : string)
    (network : list FetchSettlement) :
  let urls := snd (loadPages u network 1 []) in
  urls = map (requestUrl u) (seq 1 (List.length urls)) /\
  1 <= List.length urls <= List.length network + 1 /\
  (fst (loadPages u network 1 []) = None <->
   List.length urls = List.length network + 1).
Proof. apply loadPages_requests_from. Qed.

Lemma loadPages_outcome_from (u : string) (network : list FetchSettlement) :
  forall page aggregated,
    match fst (loadPages u network page aggregated) with
    | Some (Fulfilled result) =>
        exists full last later,
          network = map Responds full ++ Responds last :: later /\
          Forall FullPage full /\ ShortPage last /\
          result = aggregated ++ List.concat (map json full) ++ json last
    | Some (Rejected err) =>
        exists full settled later,
          network = map Responds full ++ settled :: later /\
          Forall FullPage full /\ fetchPage settled = inl err
    | None =>
        exists full, network = map Responds full /\ Forall FullPage full
    end.
Proof.
  induction network as [|settled later IH]; intros page aggregated.
  - rewrite loadPages_nil. cbn [fst]. exists []. now split.
  - destruct (settlement_cases settled)
      as [(r & -> & Hr)|[(r & -> & Hr)|(err & Herr)]].
    + rewrite loadPages_full_step by assumption. cbn [fst].
      specialize (IH (page + 1) (aggregated ++ json r)).
      destruct (fst (loadPages u later (page + 1) (aggregated ++ json r)))
        as [[result|err]|].
      * destruct IH as (full & last & later' & -> & Hfull & Hlast & ->).
        exists (r :: full), last, later'. cbn [map app List.concat].
        split; [reflexivity|]. split; [now constructor|].
        split; [assumption|]. now rewrite <- !app_assoc.
      * destruct IH as (full & settled & later' & -> & Hfull & Herr).
        exists (r :: full), settled, later'. cbn [map app].
        split; [reflexivity|]. split; [now constructor | assumption].
      * destruct IH as (full & -> & Hfull).
        exists (r :: full). cbn [map]. split; [reflexivity | now constructor].
    + rewrite loadPages_short_step by assumption. cbn [fst].
      exists [], r, later. cbn [map app List.concat].
      split; [reflexivity|]. split; [constructor|]. split; [assumption|].
      reflexivity.
    + rewrite (loadPages_rejected_step _ _ _ _ _ _ Herr). cbn [fst].
      exists [], settled, later. cbn [map app].
      split; [reflexivity|]. split; [constructor | assumption].
Qed.

(** How the loop can end.  It is fulfilled only after full pages and a
    first short page, with those pages end to end; it is rejected only at
    the first call that fails, after full pages; and it is left waiting only
    when every answer so far was a full page. *)
Theorem loadPages_outcome (u : string) (network : list FetchSettlement) :
  match fst (loadPages u network 1 []) with
  | Some (Fulfilled result) =>
      exists full last later,
        network = map Responds full ++ Responds last :: later /\
        Forall FullPage full /\ ShortPage last /\
        result = List.concat (map json full) ++ json last
  | Some (Rejected err) =>
      exists full settled later,
        network = map Responds full ++ settled :: later /\
        Forall FullPage full /\ fetchPage settled = inl err
  | None =>
      exists full, network = map Responds full /\ Forall FullPage full
  end.
Proof. exact (loadPages_outcome_from u network 1 []). Qed.

(** A call that fails, be it a response that is not ok or a [fetch] that
    rejects, ends the loop at once: the loop is rejected with what was
    thrown, the failing page is the last one requested, and nothing is
    retried. *)
Theorem loadPages_aborts (u : string) (full : list Response)
    (settled : FetchSettlement) (later : list FetchSettlement) (err : Thrown) :
  Forall FullPage full ->
  fetchPage settled = inl err ->
  loadPages u (map Responds full ++ settled :: later) 1 []
  = (Some (Rejected err), map (requestUrl u) (seq 1 (List.length full + 1))).
Proof.
  intros Hfull Herr. rewrite loadPages_full_pages by assumption.
  rewrite (loadPages_rejected_step _ _ _ _ _ _ Herr). cbn [fst snd].
  now rewrite seq_app, map_app.
Qed.

Lemma loadPages_aborts_witness :
  loadPages "GeorgePearse"
    [Host.page 100; Responds (Host.rateLimited None None); Host.page 3] 1 []
  = (Some (Rejected (ErrorObject "Failed to fetch repositories (status 403).")),
     map (requestUrl "GeorgePearse") [1; 2]).
Proof.
  apply (loadPages_aborts "GeorgePearse" [Host.okResponse 100]
           (Responds (Host.rateLimited None None)) [Host.page 3]).
  - repeat constructor; vm_compute; intros E; discriminate E.
  - reflexivity.
Defined.

End FetchFacts.

(* ================================================================== *)
(** ** More about the cycles of the hook                                *)
(* ================================================================== *)

Module CycleFacts.
Import JS JSFacts Hook Spec Words FetchSpec StoreSpec.

(** A cycle that succeeds and is not cancelled, over records whose
    timestamps are all dates, replaces the collection by the sorted,
    normalised records of all the pages, clears the loading flag and leaves
    no error, whatever the state before: an error left by an earlier cycle
    is gone. *)
Theorem successful_cycle (Date_getTime : string -> Number) (options : Options)
    (full : list Response) (last : Response) (later : list FetchSettlement)
    (st : HookState) :
  Forall FullPage full ->
  ShortPage last ->
  Forall (fun r => Date_getTime (updated_at r) <> None)
    (List.concat (map json full) ++ json last) ->
  let st' := loadRepositories Date_getTime options
               (map Responds full ++ Responds last :: later) st in
  st' = {| repositories :=
             normalised Date_getTime options
               (List.concat (map json full) ++ json last);
           isLoading := false;
           error := None |} /\
  StronglySorted (NotOlder Date_getTime) (repositories st') /\
  Permutation
    (map normalise
       (filter (included options) (List.concat (map json full) ++ json last)))
    (repositories st').
Proof.
  intros Hfull Hlast Hvalid st'.
  assert (E : st' = {| repositories :=
                         normalised Date_getTime options
                           (List.concat (map json full) ++ json last);
                       isLoading := false;
                       error := None |}).
  { subst st'. unfold loadRepositories.
    rewrite loadPages_full_pages by assumption.
    rewrite loadPages_short_step by assumption.
    reflexivity. }
  split; [exact E|]. rewrite E. cbn [repositories]. split.
  - now apply CollectionSpec.normalised_sorted.
  - unfold normalised.
    rewrite (filter_ext _ _ (CollectionSpec.keeps_included options)).
    apply Array_sort_perm.
Qed.

Lemma successful_cycle_witness :
  let st' := loadRepositories Host.Date_getTime Host.defaults
               [Host.page 100; Host.page 2]
               {| repositories := []; isLoading := false;
                  error := Some "Failed to fetch repositories (status 500)." |} in
  isLoading st' = false /\ error st' = None /\
  List.length (repositories st') = 102 /\
  StronglySorted (NotOlder Host.Date_getTime) (repositories st').
Proof.
  destruct (successful_cycle Host.Date_getTime Host.defaults
              [Host.okResponse 100] (Host.okResponse 2) []
              {| repositories := []; isLoading := false;
                 error := Some "Failed to fetch repositories (status 500)." |})
    as (E & Hsorted & _).
  - repeat constructor; vm_compute; intros E; discriminate E.
  - split; [reflexivity | vm_compute; lia].
  - apply Forall_forall. intros r Hr.
    assert (Er : r = Host.repo "site" None None "2024-05-01T12:30:00Z" false false).
    { cbn [map List.concat] in Hr. rewrite app_nil_r in Hr.
      apply in_app_or in Hr. destruct Hr as [Hr|Hr]; exact (repeat_spec _ _ _ Hr). }
    rewrite Er. vm_compute. discriminate.
  - cbv zeta in *.
    change [Host.page 100; Host.page 2]
      with (map Responds [Host.okResponse 100] ++ [Responds (Host.okResponse 2)]).
    split; [now rewrite E|]. split; [now rewrite E|].
    split; [rewrite E; vm_compute; reflexivity | exact Hsorted].
Defined.

(** While a cycle waits for an answer the hook reports that it is loading
    and no error, and still exposes the collection it had. *)
Theorem cycle_in_flight (Date_getTime : string -> Number) (options : Options)
    (full : list Response) (st : HookState) :
  Forall FullPage full ->
  loadRepositories Date_getTime options (map Responds full) st
  = {| repositories := repositories st; isLoading := true; error := None |}.
Proof.
  intros Hfull. unfold loadRepositories.
  now rewrite loadPages_all_full.
Qed.

Lemma cycle_in_flight_witness :
  loadRepositories Host.Date_getTime Host.defaults [Host.page 100]
    {| repositories := map normalise Spec.sample; isLoading := false;
       error := Some "Failed to fetch repositories (status 500)." |}
  = {| repositories := map normalise Spec.sample; isLoading := true;
       error := None |}.
Proof.
  apply (cycle_in_flight Host.Date_getTime Host.defaults [Host.okResponse 100]).
  repeat constructor; vm_compute; intros E; discriminate E.
Defined.

(** A [fetch] that rejects on whatever page of a cycle that is not
    cancelled leaves the collection as it was, clears the loading flag and
    stores the message of the error, or ["Unknown error"] when what was
    thrown is not an [Error]. *)
Theorem rejected_fetch_reported (Date_getTime : string -> Number)
    (options : Options) (full : list Response) (reason : Thrown)
    (later : list FetchSettlement) (st : HookState) :
  Forall FullPage full ->
  loadRepositories Date_getTime options
    (map Responds full ++ Fails reason :: later) st
  = {| repositories := repositories st;
       isLoading := false;
       error := Some (messageOf reason) |}.
Proof.
  intros Hfull. unfold loadRepositories.
  rewrite loadPages_full_pages by assumption.
  rewrite (FetchFacts.loadPages_rejected_step _ _ _ _ _ reason) by reflexivity.
  destruct reason; reflexivity.
Qed.

Lemma rejected_fetch_reported_witness :
  loadRepositories Host.Date_getTime Host.defaults
    [Host.page 100; Fails OtherValue] initialState
  = {| repositories := []; isLoading := false; error := Some "Unknown error" |}.
Proof.
  apply (rejected_fetch_reported Host.Date_getTime Host.defaults
           [Host.okResponse 100] OtherValue [] initialState).
  repeat constructor; vm_compute; intros E; discriminate E.
Defined.

Lemma stale_result_discarded_witness :
  let es := [EffectRuns {| username := "octocat"; includeForks := true;
                           includeArchived := false |};
             EffectRuns Host.defaults;
             CycleSettles 0 (Fulfilled Spec.sample)] in
  step Host.Date_getTime (run Host.Date_getTime es)
    (CycleSettles 1 (Fulfilled [Host.repo "site" None None
                                  "2024-05-01T12:30:00Z" false false]))
  = run Host.Date_getTime es.
Proof.
  apply (stale_result_discarded Host.Date_getTime
           [EffectRuns {| username := "octocat"; includeForks := true;
                          includeArchived := false |};
            EffectRuns Host.defaults;
            CycleSettles 0 (Fulfilled Spec.sample)] 1).
  lia.
Defined.

End CycleFacts.

(* ================================================================== *)
(** ** More about white space, the normaliser and the request headers   *)
(* ================================================================== *)

Module NormaliseFacts.
Import JS JSFacts Hook Spec Words NormaliseSpec.

(** *** White space *)

Lemma trimEnd_empty_iff (s : string) :
  trimEnd s = "" <-> allWhiteSpace s = true.
Proof.
  induction s as [|c s IH]; cbn [trimEnd allWhiteSpace]; [tauto|].
  destruct (trimEnd s) eqn:E.
  - destruct (isWhiteSpace c); cbn [andb].
    + tauto.
    + split; discriminate.
  - split; [discriminate|]. intros H. apply andb_true_iff in H.
    destruct H as [_ H]. apply IH in H. discriminate H.
Qed.

Lemma trimStart_empty_iff (s : string) :
  trimStart s = "" <-> allWhiteSpace s = true.
Proof.
  induction s as [|c s IH]; cbn [trimStart allWhiteSpace]; [tauto|].
  destruct (isWhiteSpace c); cbn [andb]; [exact IH | split; discriminate].
Qed.

Lemma trimEnd_not_white (s : string) :
  allWhiteSpace (trimEnd s) = true -> trimEnd s = "".
Proof.
  induction s as [|c s IH]; cbn [trimEnd]; [reflexivity|].
  destruct (trimEnd s) eqn:E.
  - destruct (isWhiteSpace c) eqn:W; [reflexivity|].
    cbn [allWhiteSpace]. rewrite W. discriminate.
  - cbn [allWhiteSpace]. intros H. apply andb_true_iff in H.
    destruct H as [_ H]. specialize (IH H). discriminate IH.
Qed.

(** [trim] leaves nothing exactly of the strings made of white space. *)
Lemma trim_empty_iff (s : string) : trim s = "" <-> allWhiteSpace s = true.
Proof.
  unfold trim. rewrite trimStart_empty_iff. split.
  - intros H. apply trimEnd_empty_iff, trimEnd_not_white, H.
  - intros H. apply trimEnd_empty_iff in H. now rewrite H.
Qed.

Lemma allWhiteSpace_app (a b : string) :
  allWhiteSpace (a ++ b) = allWhiteSpace a && allWhiteSpace b.
Proof.
  induction a as [|c a IH]; cbn [append allWhiteSpace]; [reflexivity|].
  now rewrite IH, andb_assoc.
Qed.

(** *** The tags of a record *)






(** The lower-cased topics of a raw record, none when it has no topic list. *)
Lemma allTags_nil_iff (repo : GitHubRepo) :
  allTags (normalise repo) = [] <-> topics repo = None \/ topics repo = Some [].
Proof.
  split.
  - intros H. destruct (topics repo) as [[|t ts]|] eqn:E; auto.
    assert (Hin : In (toLowerCase t) (allTags (normalise repo))).
    { apply allTags_In. exists t, (t :: ts). repeat split; [assumption | now left]. }
    rewrite H in Hin. destruct Hin.
  - unfold normalise. cbn [allTags]. intros [-> | ->]; reflexivity.
Qed.


(** *** The request headers *)

(** The two fixed headers are always sent.  The [Authorization] header is
    sent exactly when a token is configured that is not made of white space
    only, and then carries the token as it was given, not trimmed. *)
Theorem buildRequestHeaders_authorization (token : option string) :
  let headers := buildRequestHeaders token in
  headerValue headers "Accept" = Some "application/vnd.github+json" /\
  headerValue headers "X-GitHub-Api-Version" = Some "2022-11-28" /\
  headerValue headers "Authorization" =
    match token with
    | Some t => if allWhiteSpace t then None else Some ("Bearer " ++ t)%string
    | None => None
    end.
Proof.
  unfold buildRequestHeaders. destruct token as [t|]; [|now repeat split].
  destruct (allWhiteSpace t) eqn:W.
  - apply trim_empty_iff in W. rewrite W. now repeat split.
  - destruct (trim t) eqn:T.
    + apply trim_empty_iff in T. congruence.
    + now repeat split.
Qed.

End NormaliseFacts.

(* ================================================================== *)
(** ** More about the tag list and its buttons                          *)
(* ================================================================== *)

Module TagFacts.
Import JS JSFacts Hook App Components AppView Spec Words NormaliseSpec FilterSpec TagSpec.

(** *** Nothing is lost in the count *)

Lemma Map_set_total (m : Map) (k : string) (v : nat) :
  list_sum (map snd (Map_set m k v)) + valueOf m k
  = list_sum (map snd m) + v.
Proof.
  unfold valueOf.
  induction m as [|[k0 v0] m IH]; simpl.
  - lia.
  - destruct (String.eqb k k0); simpl; lia.
Qed.

Lemma countTag_total (m : Map) (tag : string) :
  list_sum (map snd (countTag m tag)) = list_sum (map snd m) + 1.
Proof.
  unfold countTag.
  pose proof (Map_set_total m (toLowerCase tag)
                (match Map_get m (toLowerCase tag) with
                 | Some n => n
                 | None => 0
                 end + 1)) as H.
  unfold valueOf in H. lia.
Qed.

Lemma count_total (ts : list string) (m : Map) :
  list_sum (map snd (fold_left countTag ts m))
  = list_sum (map snd m) + List.length ts.
Proof.
  revert m. induction ts as [|t ts IH]; intros m; cbn [fold_left List.length].
  - lia.
  - rewrite IH, countTag_total. lia.
Qed.

Lemma counts_total (repositories : list RepositoryWithTags) :
  list_sum (map snd (counts repositories))
  = List.length (flat_map allTags repositories).
Proof. unfold counts. now rewrite countRepo_flat, count_total. Qed.

(** The counts of the tag list add up to the number of tags that the
    records of the collection carry in all: each tag of each record is
    counted once, under exactly one label. *)
Theorem tags_count_every_tag (localeCompare : string -> string -> Z)
    (repositories : list RepositoryWithTags) :
  totalCount (tags localeCompare repositories)
  = list_sum (map (fun r => List.length (allTags r)) repositories).
Proof.
  unfold totalCount.
  rewrite <- (Permutation_list_sum
                (Permutation_map count (tags_perm localeCompare repositories))).
  rewrite map_map. cbn [entryToTagMeta count].
  rewrite <- length_flat_map, <- counts_total. reflexivity.
Qed.

Lemma flat_map_nil_iff (repositories : list RepositoryWithTags) :
  flat_map allTags repositories = [] <->
  Forall (fun r => allTags r = []) repositories.
Proof.
  induction repositories as [|r rs IH]; cbn [flat_map].
  - split; [constructor | reflexivity].
  - split.
    + intros H. apply app_eq_nil in H. destruct H as [Hr Hrs].
      constructor; [assumption | now apply IH].
    + intros H. inversion H as [|? ? Hr Hrs]; subst.
      rewrite Hr. now apply IH.
Qed.

Lemma tags_nil_iff (localeCompare : string -> string -> Z)
    (repositories : list RepositoryWithTags) :
  tags localeCompare repositories = [] <->
  Forall (fun r => allTags r = []) repositories.
Proof.
  rewrite <- flat_map_nil_iff.
  pose proof (tags_perm localeCompare repositories) as P.
  pose proof (counts_total repositories) as T. split.
  - intros H. rewrite H in P. apply Permutation_sym, Permutation_nil in P.
    apply map_eq_nil in P. rewrite P in T. cbn in T.
    now destruct (flat_map allTags repositories).
  - intros H. unfold counts in P. rewrite countRepo_flat, H in P. cbn in P.
    now apply Permutation_nil in P.
Qed.

(** *** Clicking a tag *)

Lemma lowerCodeUnit_not_A (c : ascii) : lowerCodeUnit c <> "A"%char.
Proof.
  destruct c as [[] [] [] [] [] [] [] []]; vm_compute; discriminate.
Qed.

(** No label is the value of the "All" button: labels are in lower case. *)
Lemma toLowerCase_not_ALL (s : string) : toLowerCase s <> "__ALL__".
Proof.
  destruct s as [|c1 [|c2 [|c3 s]]]; cbn [toLowerCase]; try discriminate.
  intros E. inversion E as [[E1 E2 E3 E4]].
  now apply lowerCodeUnit_not_A in E3.
Qed.

Lemma tags_label_lower (localeCompare : string -> string -> Z)
    (repositories : list RepositoryWithTags) (entry : TagMeta) :
  In entry (tags localeCompare repositories) ->
  exists tag, label entry = toLowerCase tag.
Proof.
  intros H. apply (in_map label) in H.
  apply (Permutation_in _ (Permutation_sym (tags_labels localeCompare repositories))) in H.
  unfold counts in H. rewrite countRepo_flat in H.
  apply count_keys in H. destruct H as [[]|H].
  apply in_map_iff in H. destruct H as (tag & E & _). now exists tag.
Qed.

Lemma clickTag_label (localeCompare : string -> string -> Z)
    (repositories : list RepositoryWithTags) (entry : TagMeta)
    (f : FilterState) :
  In entry (tags localeCompare repositories) ->
  clickTag (label entry) f
  = {| activeTag := Some (label entry); searchTerm := searchTerm f |}.
Proof.
  intros H. destruct (tags_label_lower _ _ _ H) as (tag & E).
  unfold clickTag, handleClick.
  destruct (String.eqb_spec (label entry) "__ALL__") as [A|_]; [|reflexivity].
  rewrite E in A. now apply toLowerCase_not_ALL in A.
Qed.

(** A click on the button of a tag of the tag list makes that tag the active
    tag and leaves the search string alone; the value of the "All" button
    cannot be taken for a tag, because no label is ["__ALL__"]. *)
Theorem clickTag_selects (localeCompare : string -> string -> Z)
    (repositories : list RepositoryWithTags) (entry : TagMeta)
    (f : FilterState) :
  In entry (tags localeCompare repositories) ->
  clickTag (label entry) f
  = {| activeTag := Some (label entry); searchTerm := searchTerm f |} /\
  clickTag "__ALL__" f = {| activeTag := None; searchTerm := searchTerm f |}.
Proof.
  intros H. split; [|reflexivity]. now apply clickTag_label with localeCompare repositories.
Qed.

Lemma clickTag_selects_witness :
  clickTag "cv" {| activeTag := Some "ml"; searchTerm := "vis" |}
  = {| activeTag := Some "cv"; searchTerm := "vis" |}.
Proof.
  apply (clickTag_selects Host.localeCompare Spec.twoRecords
           {| label := "cv"; count := 1 |}
           {| activeTag := Some "ml"; searchTerm := "vis" |}).
  left. reflexivity.
Defined.

(** The count on the button of a tag is the number of cards shown once the
    button is clicked, as long as nothing is typed in the search field. *)
Theorem count_is_what_a_click_shows (localeCompare : string -> string -> Z)
    (repositories : list RepositoryWithTags) (entry : TagMeta)
    (f : FilterState) :
  Forall Normalised repositories ->
  In entry (tags localeCompare repositories) ->
  label entry <> "" ->
  trim (searchTerm f) = "" ->
  List.length (filteredRepositories repositories (clickTag (label entry) f))
  = count entry.
Proof.
  intros Hn Hin Hne Hs.
  rewrite (clickTag_label _ _ _ f Hin).
  assert (Hc : In (label entry, count entry) (counts repositories)).
  { apply (Permutation_in _ (Permutation_sym (tags_perm localeCompare repositories))) in Hin.
    apply in_map_iff in Hin. destruct Hin as ([k v] & <- & Hin). exact Hin. }
  rewrite (counts_value _ Hn _ _ Hc). unfold filteredRepositories.
  f_equal. apply filter_ext. intros r.
  rewrite isVisible_split. unfold tagPasses, searchPasses.
  cbn [activeTag searchTerm].
  apply truthy_true_iff in Hne. rewrite Hne, Hs.
  cbn [String.length Nat.eqb orb]. apply andb_true_r.
Qed.

Lemma count_is_what_a_click_shows_witness :
  List.length
    (filteredRepositories Spec.twoRecords
       (clickTag "ml" {| activeTag := None; searchTerm := "  " |})) = 2.
Proof.
  apply (count_is_what_a_click_shows Host.localeCompare Spec.twoRecords
           {| label := "ml"; count := 2 |}
           {| activeTag := None; searchTerm := "  " |}).
  - unfold Spec.twoRecords. cbn [map].
    constructor; [apply normalise_Normalised|].
    constructor; [apply normalise_Normalised | constructor].
  - right. left. reflexivity.
  - discriminate.
  - reflexivity.
Defined.

(** *** The active button *)

Lemma pillClass_active (active : bool) :
  String.eqb (pillClass active) "tag-pill active" = active.
Proof. now destruct active. Qed.

Lemma activeButtons_tags (tags : list TagMeta) (activeTag : option string) :
  map buttonValue
    (activeButtons
       (map (fun tag =>
               {| buttonValue := label tag;
                  className := pillClass (isActive activeTag (label tag));
                  buttonText := label tag;
                  tagCount := Some (count tag) |}) tags))
  = match activeTag with
    | Some t => filter (String.eqb t) (map label tags)
    | None => []
    end.
Proof.
  unfold activeButtons.
  induction tags as [|tag tags IH]; cbn [map filter className].
  - now destruct activeTag.
  - rewrite pillClass_active. destruct activeTag as [t|]; cbn [isActive] in *.
    + destruct (String.eqb t (label tag)); cbn [map buttonValue];
        now rewrite IH.
    + exact IH.
Qed.

Lemma filter_eqb_NoDup (l : list string) (t : string) :
  NoDup l ->
  filter (String.eqb t) l = if existsb (String.eqb t) l then [t] else [].
Proof.
  induction 1 as [|x l Hx _ IH]; cbn [filter existsb]; [reflexivity|].
  destruct (String.eqb_spec t x) as [<-|_]; cbn [orb]; [|exact IH].
  rewrite IH. destruct (existsb (String.eqb t) l) eqn:E; [|reflexivity].
  apply existsb_exists in E. destruct E as (y & Hy & Ey).
  apply String.eqb_eq in Ey. subst y. contradiction.
Qed.

(** Which button of the tag filter is rendered as active.  With no active
    tag it is the "All" button and no other.  With an active tag that is in
    the tag list it is the button of that tag and no other, not the "All"
    button.  With an active tag that is not (or no longer) in the list no
    button is active.  So at most one button is active. *)
Theorem one_active_button (localeCompare : string -> string -> Z)
    (repositories : list RepositoryWithTags) (activeTag : option string) :
  let buttons := TagFilter (tags localeCompare repositories) activeTag in
  map buttonValue (activeButtons buttons)
  = match activeTag with
    | None => ["__ALL__"]
    | Some t =>
        if existsb (String.eqb t) (map label (tags localeCompare repositories))
        then [t] else []
    end /\
  List.length (activeButtons buttons) <= 1 /\
  (forall t, activeTag = Some t -> ~ In "__ALL__" (map buttonValue (activeButtons buttons))).
Proof.
  intros buttons.
  assert (Hd : NoDup (map label (tags localeCompare repositories))).
  { eapply Permutation_NoDup; [apply tags_labels | apply counts_NoDup]. }
  assert (E : map buttonValue (activeButtons buttons)
              = match activeTag with
                | None => ["__ALL__"]
                | Some t =>
                    if existsb (String.eqb t)
                         (map label (tags localeCompare repositories))
                    then [t] else []
                end).
  { subst buttons. unfold TagFilter.
    pose proof (activeButtons_tags (tags localeCompare repositories) activeTag) as H.
    unfold activeButtons in *. cbn [filter className].
    rewrite pillClass_active.
    destruct activeTag as [t|]; cbn [isNull map buttonValue].
    - rewrite H. now apply filter_eqb_NoDup.
    - now rewrite H. }
  split; [exact E|]. split.
  - rewrite <- (length_map buttonValue), E.
    destruct activeTag as [t|]; [|cbn; lia].
    destruct (existsb (String.eqb t) (map label (tags localeCompare repositories)));
      cbn; lia.
  - intros t ->. rewrite E.
    destruct (existsb (String.eqb t)
                (map label (tags localeCompare repositories))) eqn:X;
      [|intros []].
    intros [->|[]]. apply existsb_exists in X. destruct X as (y & Hy & Ey).
    apply String.eqb_eq in Ey. subst y.
    apply in_map_iff in Hy. destruct Hy as (entry & El & Hin).
    destruct (tags_label_lower _ _ _ Hin) as (tag & Et).
    rewrite Et in El. now apply toLowerCase_not_ALL in El.
Qed.

Lemma one_active_button_witness :
  map buttonValue
    (activeButtons (TagFilter (tags Host.localeCompare Spec.twoRecords) (Some "ml")))
  = ["ml"].
Proof.
  apply (proj1 (one_active_button Host.localeCompare Spec.twoRecords (Some "ml"))).
Defined.

End TagFacts.

(* ================================================================== *)
(** ** More about the filter                                            *)
(* ================================================================== *)

Module FilterFacts.
Import JS JSFacts Hook App AppView Spec Words MessageFacts NormaliseFacts FilterSpec.

(** Every filter state that [App] comes to hold has an active tag that can
    be selected: none, or a lower-case label that is not empty. *)
Lemma Held_Selectable (localeCompare : string -> string -> Z) (f : FilterState) :
  Held localeCompare f -> Selectable f.
Proof.
  induction 1 as [|repositories entry f _ IH Hin Hne|f _ IH|text f _ IH];
    intros tag E.
  - discriminate E.
  - rewrite (TagFacts.clickTag_label _ _ _ f Hin) in E.
    inversion E; subst tag. split; [exact Hne|].
    destruct (TagFacts.tags_label_lower _ _ _ Hin) as (t & ->).
    apply toLowerCase_idem.
  - discriminate E.
  - apply IH. exact E.
Qed.

Lemma filter_Subsequence_impl {A} (p q : A -> bool) (l : list A) :
  (forall x, p x = true -> q x = true) ->
  Subsequence (filter p l) (filter q l).
Proof.
  intros H. induction l as [|x l IH]; cbn [filter]; [constructor|].
  destruct (p x) eqn:P.
  - rewrite (H x P). now constructor.
  - destruct (q x); [now constructor | exact IH].
Qed.

Lemma toLowerCase_app (a b : string) :
  toLowerCase (a ++ b) = (toLowerCase a ++ toLowerCase b)%string.
Proof.
  induction a as [|c a IH]; cbn [append toLowerCase]; [reflexivity|].
  now rewrite IH.
Qed.

(** What holds a string holds its parts. *)
Lemma includes_part_l (s q more : string) :
  includes s (q ++ more) = true -> includes s q = true.
Proof.
  intros H. apply includes_iff in H. destruct H as (a & b & ->).
  rewrite append_assoc. apply includes_app.
Qed.

Lemma includes_part_r (s q more : string) :
  includes s (more ++ q) = true -> includes s q = true.
Proof.
  intros H. apply includes_iff in H. destruct H as (a & b & ->).
  rewrite append_assoc, <- (append_assoc a). apply includes_app.
Qed.

Lemma searchPasses_empty (activeTag : option string) (repo : RepositoryWithTags) :
  searchPasses {| activeTag := activeTag; searchTerm := "" |} repo = true.
Proof. reflexivity. Qed.

(** The search test for a string passes for each part of the string. *)
Lemma searchPasses_part (tag : option string) (q longer : string)
    (repo : RepositoryWithTags) :
  (forall s, includes s (toLowerCase longer) = true ->
             includes s (toLowerCase q) = true) ->
  (allWhiteSpace longer = true -> allWhiteSpace q = true) ->
  searchPasses {| activeTag := tag; searchTerm := longer |} repo = true ->
  searchPasses {| activeTag := tag; searchTerm := q |} repo = true.
Proof.
  intros Hinc Hwhite. unfold searchPasses. cbn [searchTerm].
  rewrite !orb_true_iff, !length_zero_iff, !trim_empty_iff, !existsb_exists.
  intros [[[H|H]|H]|(t & Hin & H)]; auto.
  right. exists t. auto.
Qed.

(** Each of the two filters only takes records away: what is visible with a
    tag and a search string is part, in the same order, of what is visible
    with the search string alone and of what is visible with the tag alone. *)
Theorem filters_narrow (repositories : list RepositoryWithTags)
    (f : FilterState) :
  Subsequence (filteredRepositories repositories f)
    (filteredRepositories repositories
       {| activeTag := None; searchTerm := searchTerm f |}) /\
  Subsequence (filteredRepositories repositories f)
    (filteredRepositories repositories
       {| activeTag := activeTag f; searchTerm := "" |}).
Proof.
  split; apply filter_Subsequence_impl; intros r;
    rewrite !isVisible_split, !andb_true_iff; intros [Ht Hs].
  - split; [reflexivity | exact Hs].
  - split; [exact Ht | apply searchPasses_empty].
Qed.

(** Typing more never shows more, for text made of code units below 256
    (where [toLowerCase] maps each code unit by itself): with characters
    added at the end or at the start of the search string, the visible
    records are part, in the same order, of those visible before. *)
Theorem typing_narrows (repositories : list RepositoryWithTags)
    (f : FilterState) (more : string) :
  Subsequence
    (filteredRepositories repositories (typeSearch (searchTerm f ++ more) f))
    (filteredRepositories repositories f) /\
  Subsequence
    (filteredRepositories repositories (typeSearch (more ++ searchTerm f) f))
    (filteredRepositories repositories f).
Proof.
  destruct f as [tag q]. cbn [searchTerm typeSearch activeTag].
  split; apply filter_Subsequence_impl; intros r;
    rewrite !isVisible_split, !andb_true_iff; intros [Ht Hs];
    (split; [exact Ht|]); revert Hs; apply searchPasses_part.
  - intros s. rewrite toLowerCase_app. apply includes_part_l.
  - rewrite allWhiteSpace_app, andb_true_iff. tauto.
  - intros s. rewrite toLowerCase_app. apply includes_part_r.
  - rewrite allWhiteSpace_app, andb_true_iff. tauto.
Qed.

Example typing_narrows_sample :
  let coll := normalised Host.Date_getTime Host.defaults Spec.sample in
  map (fun r => name (base r))
      (filteredRepositories coll {| activeTag := None; searchTerm := "s" |})
  = ["tools"; "vision"; "site"; "notes"] /\
  map (fun r => name (base r))
      (filteredRepositories coll {| activeTag := None; searchTerm := "si" |})
  = ["vision"; "site"].
Proof. split; vm_compute; reflexivity. Qed.

End FilterFacts.

(* ================================================================== *)
(** ** What the page shows                                              *)
(* ================================================================== *)

Module ViewFacts.
Import JS JSFacts Hook App Components AppView Spec Words.
Import FetchSpec StoreSpec NormaliseSpec NormaliseFacts TagFacts.

Lemma settle_Settling (Date_getTime : string -> Number) (options : Options)
    (cancelled : bool) (outcome : Settled) (st : HookState) :
  Settling st ->
  Settling (fst (loadRepositories_settle Date_getTime options cancelled outcome st)).
Proof.
  intros H. destruct cancelled; [now rewrite settle_cancelled|].
  destruct outcome; intros E; discriminate E.
Qed.

Lemma step_Settling (Date_getTime : string -> Number) (c : Consumer) (e : Event) :
  Settling (hookState c) -> Settling (hookState (step Date_getTime c e)).
Proof.
  intros H. destruct e as [options| |index outcome]; cbn [step hookState].
  - intros _. reflexivity.
  - exact H.
  - destruct (nth_error (cycles c) index); [|exact H].
    cbn [hookState]. now apply settle_Settling.
Qed.

Lemma run_Settling (Date_getTime : string -> Number) (es : list Event) :
  Settling (hookState (run Date_getTime es)).
Proof.
  unfold run.
  assert (G : forall c, Settling (hookState c) ->
                        Settling (hookState (fold_left (step Date_getTime) es c))).
  { induction es as [|e es IH]; intros c H; [exact H|].
    cbn [fold_left]. now apply IH, step_Settling. }
  apply G. intros _. reflexivity.
Qed.

Lemma render_one_part (localeCompare : string -> string -> Z)
    (Date_getTime : string -> Number) (now : Z) (st : HookState)
    (f : FilterState) :
  Settling st ->
  partsShown (render localeCompare Date_getTime now st f) = 1.
Proof.
  unfold Settling, partsShown, render.
  cbn [loadingMessage errorPanel repositoryGrid].
  destruct (isLoading st); intros H.
  - rewrite (H eq_refl). reflexivity.
  - unfold whenTruthy. destruct (error st) as [e|]; [|reflexivity].
    destruct (truthy e); reflexivity.
Qed.

(** Whatever happens to a consumer (effects run, cycles settle in whatever
    order, the consumer unmounts), the page shows exactly one of the loading
    message, the error panel and the grid. *)
Theorem screen_shows_one_part (localeCompare : string -> string -> Z)
    (Date_getTime : string -> Number) (now : Z) (es : list Event)
    (f : FilterState) :
  partsShown
    (render localeCompare Date_getTime now
       (hookState (run Date_getTime es)) f) = 1.
Proof. apply render_one_part, run_Settling. Qed.

Lemma failed_cycle_state (Date_getTime : string -> Number) (options : Options)
    (full : list Response) (bad : Response) (later : list FetchSettlement)
    (st : HookState) :
  Forall FullPage full ->
  ok bad = false ->
  loadRepositories Date_getTime options
    (map Responds full ++ Responds bad :: later) st
  = {| repositories := repositories st;
       isLoading := false;
       error := Some (failureMessage bad) |}.
Proof.
  intros Hfull Hbad. unfold loadRepositories.
  now rewrite loadPages_fails.
Qed.

Lemma rejected_cycle_state (Date_getTime : string -> Number) (options : Options)
    (full : list Response) (reason : Thrown) (later : list FetchSettlement)
    (st : HookState) :
  Forall FullPage full ->
  loadRepositories Date_getTime options
    (map Responds full ++ Fails reason :: later) st
  = {| repositories := repositories st;
       isLoading := false;
       error := Some (messageOf reason) |}.
Proof.
  intros Hfull. unfold loadRepositories.
  rewrite loadPages_full_pages by assumption.
  rewrite (FetchFacts.loadPages_rejected_step _ _ _ _ _ reason) by reflexivity.
  destruct reason; reflexivity.
Qed.

(** After a response that is not ok the page shows the error panel with the
    message of the failure and no grid, although the hook still holds the
    collection it had. *)
Theorem screen_after_failed_fetch (localeCompare : string -> string -> Z)
    (Date_getTime : string -> Number) (now : Z) (options : Options)
    (full : list Response) (bad : Response) (later : list FetchSettlement)
    (st : HookState) (f : FilterState) :
  Forall FullPage full ->
  ok bad = false ->
  let st' := loadRepositories Date_getTime options
               (map Responds full ++ Responds bad :: later) st in
  let screen := render localeCompare Date_getTime now st' f in
  errorPanel screen = Some (failureMessage bad) /\
  repositoryGrid screen = None /\
  loadingMessage screen = false /\
  repositories st' = repositories st.
Proof.
  intros Hfull Hbad st' screen. subst screen st'.
  rewrite failed_cycle_state by assumption.
  destruct (failureMessage_reports bad) as [Hne _].
  apply truthy_true_iff in Hne.
  unfold render, whenTruthy.
  cbn [errorPanel repositoryGrid loadingMessage isLoading error repositories].
  rewrite Hne. now repeat split.
Qed.

Lemma screen_after_failed_fetch_witness :
  let st' := loadRepositories Host.Date_getTime Host.defaults
               [Responds (Host.rateLimited (Some "0") (Some "1700000000"))]
               {| repositories := map normalise Spec.sample;
                  isLoading := false; error := None |} in
  let screen := render Host.localeCompare Host.Date_getTime 1717200000000 st'
                  initialFilter in
  errorPanel screen
  = Some "Failed to fetch repositories (status 403). Rate limit remaining: 0. Resets at: 1700000000" /\
  repositoryGrid screen = None /\
  repositories st' = map normalise Spec.sample.
Proof.
  destruct (screen_after_failed_fetch Host.localeCompare Host.Date_getTime
              1717200000000 Host.defaults []
              (Host.rateLimited (Some "0") (Some "1700000000")) []
              {| repositories := map normalise Spec.sample;
                 isLoading := false; error := None |}
              initialFilter)
    as (He & Hg & _ & Hr).
  - constructor.
  - reflexivity.
  - split; [exact He | split; [exact Hg | exact Hr]].
Defined.

(** After a [fetch] that rejects, the error panel shows only if the message
    stored is not empty.  With an empty message nothing tells of the
    failure: the page shows the grid of the collection the hook had. *)
Theorem screen_after_rejected_fetch (localeCompare : string -> string -> Z)
    (Date_getTime : string -> Number) (now : Z) (options : Options)
    (full : list Response) (reason : Thrown) (later : list FetchSettlement)
    (st : HookState) (f : FilterState) :
  Forall FullPage full ->
  let st' := loadRepositories Date_getTime options
               (map Responds full ++ Fails reason :: later) st in
  let screen := render localeCompare Date_getTime now st' f in
  loadingMessage screen = false /\
  (messageOf reason <> "" ->
   errorPanel screen = Some (messageOf reason) /\ repositoryGrid screen = None) /\
  (messageOf reason = "" ->
   errorPanel screen = None /\
   repositoryGrid screen
   = Some (RepositoryGrid Date_getTime now
             (filteredRepositories (repositories st) f))).
Proof.
  intros Hfull st' screen. subst screen st'.
  rewrite rejected_cycle_state by assumption.
  unfold render, whenTruthy.
  cbn [errorPanel repositoryGrid loadingMessage isLoading error repositories].
  split; [reflexivity|]. split.
  - intros Hne. apply truthy_true_iff in Hne. rewrite Hne. now split.
  - intros He. rewrite He. now split.
Qed.

Lemma screen_after_rejected_fetch_witness :
  let st := {| repositories := map normalise Spec.sample;
               isLoading := false; error := None |} in
  let st' := loadRepositories Host.Date_getTime Host.defaults
               [Fails (ErrorObject "")] st in
  let screen := render Host.localeCompare Host.Date_getTime 1717200000000 st'
                  initialFilter in
  error st' = Some "" /\
  errorPanel screen = None /\
  repositoryGrid screen
  = Some (RepositoryGrid Host.Date_getTime 1717200000000
            (map normalise Spec.sample)).
Proof.
  destruct (screen_after_rejected_fetch Host.localeCompare Host.Date_getTime
              1717200000000 Host.defaults [] (ErrorObject "") []
              {| repositories := map normalise Spec.sample;
                 isLoading := false; error := None |}
              initialFilter)
    as (_ & _ & Hempty).
  - constructor.
  - destruct (Hempty eq_refl) as [He Hg].
    split; [reflexivity | split; [exact He | exact Hg]].
Defined.

(** The tag filter gives way to the hint to add topics exactly when no
    record of the collection has a tag; otherwise it shows the "All" button
    and one button for each tag. *)
Theorem tag_panel_shown (localeCompare : string -> string -> Z)
    (Date_getTime : string -> Number) (now : Z) (st : HookState)
    (f : FilterState) :
  let screen := render localeCompare Date_getTime now st f in
  (tagPanel screen = None <->
   Forall (fun r => allTags r = []) (repositories st)) /\
  (forall buttons,
      tagPanel screen = Some buttons ->
      map buttonValue buttons
      = "__ALL__" :: map label (tags localeCompare (repositories st))).
Proof.
  intros screen. subst screen. unfold render. cbn [tagPanel].
  rewrite <- (tags_nil_iff localeCompare).
  destruct (tags localeCompare (repositories st)) as [|entry entries] eqn:E;
    cbn [List.length Nat.ltb Nat.leb].
  - split; [tauto | discriminate].
  - split; [split; discriminate|].
    intros buttons H. inversion H; subst buttons.
    unfold TagFilter. cbn [map buttonValue]. now rewrite map_map.
Qed.

Lemma tag_panel_shown_witness :
  option_map (map buttonValue)
    (tagPanel (render Host.localeCompare Host.Date_getTime 1717200000000
                 {| repositories := Spec.twoRecords; isLoading := false;
                    error := None |}
                 initialFilter))
  = Some ["__ALL__"; "cv"; "ml"].
Proof.
  destruct (tagPanel (render Host.localeCompare Host.Date_getTime 1717200000000
                        {| repositories := Spec.twoRecords; isLoading := false;
                           error := None |}
                        initialFilter)) as [buttons|] eqn:E.
  - cbn [option_map]. f_equal.
    apply (proj2 (tag_panel_shown Host.localeCompare Host.Date_getTime
                    1717200000000
                    {| repositories := Spec.twoRecords; isLoading := false;
                       error := None |}
                    initialFilter) buttons E).
  - discriminate E.
Defined.

End ViewFacts.

(* ================================================================== *)
(** ** The relative dates                                               *)
(* ================================================================== *)

Module DateFacts.
Import JS Words Dates.

(** What rounding a quotient to the nearest integer means. *)
Lemma round_div_bounds (a b : Z) :
  (0 < b)%Z ->
  (2 * b * ((2 * a + b) / (2 * b)) <= 2 * a + b
   < 2 * b * ((2 * a + b) / (2 * b)) + 2 * b)%Z.
Proof.
  intros Hb.
  pose proof (Z.div_mod (2 * a + b) (2 * b)) as E.
  pose proof (Z.mod_pos_bound (2 * a + b) (2 * b)) as M.
  lia.
Qed.

(** The unit and the number for a number of seconds elapsed. *)
Lemma firstUnit_units (e : Z) :
  exists v u,
    firstUnit (Some e) (Some (Z.abs e)) units = rtf_format (Some v) u /\
    (leastShown u <= Z.abs v)%Z /\
    atMost (Z.abs v) (mostShown u) /\
    (u = second -> v = e) /\
    (e <= 0 -> v <= 0)%Z /\ (0 <= e -> 0 <= v)%Z.
Proof.
  cbn [firstUnit units lessThan max value name Math_round_div].
  destruct (Z.ltb_spec (Z.abs e) 60);
    [|destruct (Z.ltb_spec (Z.abs e) 3600);
      [|destruct (Z.ltb_spec (Z.abs e) 86400);
        [|destruct (Z.ltb_spec (Z.abs e) 604800);
          [|destruct (Z.ltb_spec (Z.abs e) 2629800);
            [|destruct (Z.ltb_spec (Z.abs e) 31557600)]]]]];
    eexists; eexists; (split; [reflexivity|]);
    cbn [leastShown mostShown atMost].
  - pose proof (round_div_bounds e 1 ltac:(lia)).
    repeat split; lia.
  - pose proof (round_div_bounds e 60 ltac:(lia)).
    repeat split; try lia; discriminate.
  - pose proof (round_div_bounds e 3600 ltac:(lia)).
    repeat split; try lia; discriminate.
  - pose proof (round_div_bounds e 86400 ltac:(lia)).
    repeat split; try lia; discriminate.
  - pose proof (round_div_bounds e 604800 ltac:(lia)).
    repeat split; try lia; discriminate.
  - pose proof (round_div_bounds e 2629800 ltac:(lia)).
    repeat split; try lia; discriminate.
  - pose proof (round_div_bounds e 31557600 ltac:(lia)).
    repeat split; try lia; discriminate.
Qed.

(** [formatDistanceToNow] falls back on [toLocaleDateString] exactly when
    the date is not valid; for a valid date the loop over the units always
    returns. *)
Theorem formatDistanceToNow_fallback (input : Number) (now : Z) :
  formatDistanceToNow input now = toLocaleDateString <-> input = None.
Proof.
  unfold formatDistanceToNow. destruct input as [t|]; cbn [Number_sub].
  - cbn [Math_round_div Math_abs].
    destruct (firstUnit_units ((2 * (t - now) + 1000) / (2 * 1000)))
      as (v & u & E & _).
    rewrite E. split; discriminate.
  - split; reflexivity.
Qed.

(** For a valid date the text is that of a number with a unit.  Below a
    minute the number is the number of seconds elapsed; with any other unit
    it is never 0, and it can be as large as one unit of the next size (60
    minutes, 24 hours, 7 days, 12 months) but no larger (4 for weeks).  It is
    negative or zero for a date in the past and positive or zero for a date
    to come. *)
Theorem formatDistanceToNow_number (t now : Z) :
  exists v u,
    formatDistanceToNow (Some t) now = rtf_format (Some v) u /\
    (leastShown u <= Z.abs v)%Z /\
    atMost (Z.abs v) (mostShown u) /\
    (u = second -> Some v = Math_round_div (Some (t - now)%Z) 1000) /\
    (t <= now -> v <= 0)%Z /\ (now <= t -> 0 <= v)%Z.
Proof.
  unfold formatDistanceToNow. cbn [Number_sub Math_round_div Math_abs].
  destruct (firstUnit_units ((2 * (t - now) + 1000) / (2 * 1000)))
    as (v & u & E & Hleast & Hmost & Hsec & Hneg & Hpos).
  exists v, u. pose proof (round_div_bounds (t - now) 1000 ltac:(lia)).
  repeat split; try assumption.
  - intros Hu. now rewrite (Hsec Hu).
  - intros Ht. apply Hneg. lia.
  - intros Ht. apply Hpos. lia.
Qed.

Lemma formatDistanceToNow_number_witness :
  formatDistanceToNow (Some 1714566600000%Z) 1714570199000%Z
  = rtf_format (Some (-60)%Z) minute.
Proof.
  destruct (formatDistanceToNow_number 1714566600000 1714570199000)
    as (v & u & E & _).
  rewrite E. vm_compute in E. inversion E. reflexivity.
Defined.

End DateFacts.

(* ================================================================== *)
(** ** The cards                                                        *)
(* ================================================================== *)

Module CardFacts.
Import JS JSFacts Hook Components Spec Words NormaliseSpec NormaliseFacts.

(** The card of a record that went through [normalise]: the Docs link is
    the [docsUrl] of the record, never the fallback on the bare URL, and is
    not empty; the list of tags is shown exactly when the raw record has at
    least one topic, and then holds the tags of the record. *)
Theorem card_of_normalised (Date_getTime : string -> Number) (now : Z)
    (raw : GitHubRepo) :
  let card := RepositoryCard Date_getTime now (normalise raw) in
  docsUrl (normalise raw) = Some (docsHref card) /\
  docsHref card <> "" /\
  (tagItems card = None <-> topics raw = None \/ topics raw = Some []) /\
  (forall tags, tagItems card = Some tags ->
                tags = allTags (normalise raw) /\ tags <> []).
Proof.
  intros card. subst card. unfold RepositoryCard.
  cbn [docsHref tagItems]. split; [reflexivity|]. split.
  - cbn [normalise docsUrl].
    destruct (homepage raw) as [h|]; [destruct (trim h) eqn:T|]; simpl;
      try discriminate; apply append_not_empty_r; discriminate.
  - rewrite <- allTags_nil_iff.
    destruct (allTags (normalise raw)) as [|tag tags'];
      cbn [List.length Nat.ltb Nat.leb]; split.
    + tauto.
    + discriminate.
    + split; discriminate.
    + intros tags H. inversion H; subst tags. split; [reflexivity | discriminate].
Qed.

Lemma card_of_normalised_witness :
  tagItems (RepositoryCard Host.Date_getTime 1714570199000
              (normalise (Host.repo "site" None None
                            "2024-05-01T12:30:00Z" false false))) = None.
Proof.
  apply (proj1 (proj2 (proj2 (card_of_normalised Host.Date_getTime 1714570199000
                                (Host.repo "site" None None
                                   "2024-05-01T12:30:00Z" false false))))).
  left. reflexivity.
Defined.

Example card_of_sample :
  let card := RepositoryCard Host.Date_getTime 1714570199000
                (normalise (Host.repo "vision" (Some ["CV"; "ml"; "cv"]) None
                              "2024-05-01T12:30:00Z" false false)) in
  docsHref card = "https://github.com/GeorgePearse/vision#readme" /\
  tagItems card = Some ["cv"; "ml"] /\
  updatedItem card = Dates.rtf_format (Some (-60)%Z) Dates.minute.
Proof. repeat split. Qed.

End CardFacts.

(* ================================================================== *)
(** ** The cache script                                                 *)
(* ================================================================== *)

Module CacheFacts.
Import JS JSFacts Hook Spec Words FetchSpec.

(** The script asks for the same URLs as the hook does for the same user:
    [URLSearchParams] writes the query that the hook spells out. *)
Lemma script_requests_same_url (page : nat) :
  CacheScript.requestUrl page = requestUrl CacheScript.GITHUB_USERNAME page.
Proof.
  unfold CacheScript.requestUrl, requestUrl.
  cbn [CacheScript.searchParams_set String.eqb Ascii.eqb Bool.eqb filter
       CacheScript.serialize].
  unfold CacheScript.GITHUB_USERNAME, CacheScript.PER_PAGE, PER_PAGE.
  cbn [append]. reflexivity.
Qed.

Lemma script_agrees_from (network : list FetchSettlement) :
  forall page repositories,
    SameOutcome
      (fst (CacheScript.fetchRepositories network page repositories))
      (fst (loadPages CacheScript.GITHUB_USERNAME network page repositories)) /\
    snd (CacheScript.fetchRepositories network page repositories)
    = snd (loadPages CacheScript.GITHUB_USERNAME network page repositories).
Proof.
  induction network as [|settled later IH]; intros page repositories;
    cbn [CacheScript.fetchRepositories loadPages fetchPage];
    rewrite script_requests_same_url.
  - now split.
  - destruct settled as [response|reason]; cbn [fetchPage]; [|now split].
    destruct (ok response); cbn [negb]; [|now split].
    change CacheScript.PER_PAGE with PER_PAGE.
    destruct (json response) as [|record records] eqn:E.
    + cbn. now rewrite app_nil_r.
    + cbn [List.length Nat.eqb]. rewrite <- E.
      destruct (S (List.length records) <? PER_PAGE); [now split|].
      specialize (IH (page + 1) (repositories ++ json response)).
      destruct (CacheScript.fetchRepositories later (page + 1)
                  (repositories ++ json response)) as [r1 u1].
      destruct (loadPages CacheScript.GITHUB_USERNAME later (page + 1)
                  (repositories ++ json response)) as [r2 u2].
      cbn [fst snd] in *. destruct IH as [Hr Hu]. now rewrite Hu.
Qed.

(** The script and the hook page alike.  Over the same answers of the
    network they request the same pages and end the same way: with the same
    records, or both rejected at the same page, or both still waiting.  (An
    empty page ends both; the script tests for it, the hook finds it short.) *)
Theorem script_agrees_with_hook (network : list FetchSettlement) :
  SameOutcome
    (fst (CacheScript.fetchRepositories network 1 []))
    (fst (loadPages CacheScript.GITHUB_USERNAME network 1 [])) /\
  snd (CacheScript.fetchRepositories network 1 [])
  = snd (loadPages CacheScript.GITHUB_USERNAME network 1 []).
Proof. apply script_agrees_from. Qed.

(** A run of the script whose fetch fails on some page exits with code 1
    and leaves the cache file as it was; the cache directory exists all the
    same, since it is made before the fetch. *)
Theorem failed_run_keeps_cache (isoNow : string) (full : list Response)
    (settled : FetchSettlement) (later : list FetchSettlement) (err : Thrown)
    (fs : CacheScript.FileSystem) :
  Forall FullPage full ->
  fetchPage settled = inl err ->
  exists fs',
    CacheScript.cacheRepositories isoNow
      (map Responds full ++ settled :: later) fs
    = Some (fs', CacheScript.Exits 1) /\
    CacheScript.cacheFile fs' = CacheScript.cacheFile fs /\
    CacheScript.cacheDirExists fs' = true.
Proof.
  intros Hfull Herr. unfold CacheScript.cacheRepositories.
  destruct (script_agrees_from (map Responds full ++ settled :: later) 1 [])
    as [Hsame _].
  rewrite loadPages_full_pages in Hsame by assumption.
  rewrite (FetchFacts.loadPages_rejected_step _ _ _ _ _ _ Herr) in Hsame.
  cbn [fst] in Hsame.
  destruct (fst (CacheScript.fetchRepositories
                   (map Responds full ++ settled :: later) 1 []))
    as [[repos|err']|]; cbn [SameOutcome] in Hsame; try contradiction.
  eexists. split; [reflexivity|].
  destruct (CacheScript.cacheDirExists fs) eqn:D; cbn [negb]; now split.
Qed.

Lemma failed_run_keeps_cache_witness :
  exists fs',
    CacheScript.cacheRepositories "2024-06-01T00:00:00.000Z"
      [Host.page 100; Responds (Host.rateLimited None None)]
      {| CacheScript.cacheDirExists := false; CacheScript.cacheFile := None |}
    = Some (fs', CacheScript.Exits 1) /\
    CacheScript.cacheFile fs' = None /\
    CacheScript.cacheDirExists fs' = true.
Proof.
  apply (failed_run_keeps_cache "2024-06-01T00:00:00.000Z"
           [Host.okResponse 100] (Responds (Host.rateLimited None None)) []
           (ErrorObject "Failed to fetch repositories (status 403).")
           {| CacheScript.cacheDirExists := false;
              CacheScript.cacheFile := None |}).
  - repeat constructor; vm_compute; intros E; discriminate E.
  - reflexivity.
Defined.

(** A run of the script whose fetch succeeds writes a cache that holds the
    records of all the pages, in order, with their number, the user name and
    the time of the run, and returns. *)
Theorem successful_run_writes_cache (isoNow : string) (full : list Response)
    (last : Response) (later : list FetchSettlement)
    (fs : CacheScript.FileSystem) :
  Forall FullPage full ->
  ShortPage last ->
  let records := List.concat (map json full) ++ json last in
  CacheScript.cacheRepositories isoNow
    (map Responds full ++ Responds last :: later) fs
  = Some ({| CacheScript.cacheDirExists := true;
             CacheScript.cacheFile :=
               Some {| CacheScript.timestamp := isoNow;
                       CacheScript.username := "GeorgePearse";
                       CacheScript.repositoryCount :=
                         list_sum (map (fun r => List.length (json r))
                                     (full ++ [last]));
                       CacheScript.repositories := records |} |},
          CacheScript.Returns).
Proof.
  intros Hfull Hlast records. subst records.
  unfold CacheScript.cacheRepositories.
  destruct (script_agrees_from (map Responds full ++ Responds last :: later) 1 [])
    as [Hsame _].
  rewrite loadPages_full_pages in Hsame by assumption.
  rewrite loadPages_short_step in Hsame by assumption.
  cbn [fst app] in Hsame.
  destruct (fst (CacheScript.fetchRepositories
                   (map Responds full ++ Responds last :: later) 1 []))
    as [[repos|err']|]; cbn [SameOutcome] in Hsame; try contradiction.
  subst repos.
  assert (L : List.length (List.concat (map json full) ++ json last)
              = list_sum (map (fun r => List.length (json r)) (full ++ [last]))).
  { rewrite length_app, length_concat, map_map, map_app, list_sum_app.
    cbn. lia. }
  rewrite L.
  destruct (CacheScript.cacheDirExists fs) eqn:D; cbn [negb];
    cbn [CacheScript.cacheDirExists]; [rewrite D|]; reflexivity.
Qed.

Lemma successful_run_writes_cache_witness :
  exists cache,
    CacheScript.cacheRepositories "2024-06-01T00:00:00.000Z"
      [Host.page 100; Host.page 37]
      {| CacheScript.cacheDirExists := true; CacheScript.cacheFile := None |}
    = Some ({| CacheScript.cacheDirExists := true;
               CacheScript.cacheFile := Some cache |}, CacheScript.Returns) /\
    CacheScript.repositoryCount cache = 137.
Proof.
  eexists. split.
  - apply (successful_run_writes_cache "2024-06-01T00:00:00.000Z"
             [Host.okResponse 100] (Host.okResponse 37) []
             {| CacheScript.cacheDirExists := true;
                CacheScript.cacheFile := None |}).
    + repeat constructor; vm_compute; intros E; discriminate E.
    + split; [reflexivity | vm_compute; lia].
  - reflexivity.
Defined.

End CacheFacts.

(* ================================================================== *)
(** ** The order of the cards                                           *)
(* ================================================================== *)

Module OrderFacts.
Import JS JSFacts Hook App Components Spec Words CollectionSpec FilterSpec.

Lemma StronglySorted_Subsequence {A} (R : A -> A -> Prop) (l1 l2 : list A) :
  Subsequence l1 l2 -> StronglySorted R l2 -> StronglySorted R l1.
Proof.
  induction 1 as [|x l1 l2 H IH|x l1 l2 H IH]; intros Hs.
  - constructor.
  - inversion Hs; subst. now apply IH.
  - inversion Hs as [|? ? Hs' Hall]; subst. constructor; [now apply IH|].
    rewrite Forall_forall in *. intros y Hy. apply Hall.
    clear - H Hy. induction H; [destruct Hy | right; auto |].
    destruct Hy as [<-|Hy]; [now left | right; auto].
Qed.

(** Whatever the filter, the cards of the grid come newest first: after a
    successful cycle the visible records are sorted by update time, the
    latest first, and the grid holds one card for each of them in that
    order. *)
Theorem cards_newest_first (Date_getTime : string -> Number) (now : Z)
    (options : Options) (aggregated : list GitHubRepo) (f : FilterState) :
  Forall (fun r => Date_getTime (updated_at r) <> None) aggregated ->
  let visible :=
    filteredRepositories (normalised Date_getTime options aggregated) f in
  StronglySorted (NotOlder Date_getTime) visible /\
  (visible <> [] ->
   RepositoryGrid Date_getTime now visible
   = Cards (map (fun r => (id (base r), RepositoryCard Date_getTime now r))
              visible)).
Proof.
  intros Hvalid visible. subst visible. split.
  - eapply StronglySorted_Subsequence;
      [apply filter_Subsequence | now apply normalised_sorted].
  - intros Hne. unfold RepositoryGrid.
    destruct (filteredRepositories (normalised Date_getTime options aggregated) f);
      [contradiction | reflexivity].
Qed.

Lemma cards_newest_first_witness :
  StronglySorted (NotOlder Host.Date_getTime)
    (filteredRepositories
       (normalised Host.Date_getTime Host.defaults Spec.sample)
       {| activeTag := Some "ml"; searchTerm := "" |}).
Proof.
  apply (cards_newest_first Host.Date_getTime 1717200000000 Host.defaults
           Spec.sample {| activeTag := Some "ml"; searchTerm := "" |}).
  repeat constructor; vm_compute; intros E; discriminate E.
Defined.

End OrderFacts.
